(** * Revalidation endpoints of next-graphcommerce

    A shallow embedding of the three API route handlers of the repository

      - [/api/revalidate], in [pages/api/revalidate.ts]  (module [Revalidate]),
      - [/api/revalidate-all]                            (module [RevalidateAll]),
      - [/api/webhook/magento]                           (module [Webhook]),

    together with the properties the specification states about them.

    Conventions of the embedding.

      - A JavaScript string is a [string]; the string operations the handlers
        use ([startsWith], [replace] with a string pattern, template
        literals, [Array.prototype.join]) are written out in [JS].
      - A handler is a function from the request and from what the outside
        world answers (the outcome of [res.revalidate], of [fetch], of the
        static-path enumerators) to the response it sends.
      - [res.status(n).json(b)] is the record [{| status := n; body := b |}];
        [res.json(b)] alone sends status 200. *)

From Stdlib Require Import List String Ascii Arith ZArith Lia Bool.
From Stdlib Require Import Permutation DecimalString.
Import ListNotations.

Local Open Scope list_scope.
Local Open Scope string_scope.

(* ================================================================== *)
(** ** JavaScript values and string operations                         *)
(* ================================================================== *)

Module JS.

(** [s.startsWith(pre)] *)
Definition startsWith (pre s : string) : bool := String.prefix pre s.

(** [s.replace(pat, rep)] for a string pattern [pat]: the first
    occurrence of [pat] in [s], scanning from the left, is replaced by
    [rep]; [s] is returned unchanged when there is none.  (The handlers
    only pass the replacement [''], which has no [$] patterns.) *)
Fixpoint replace (pat rep s : string) : string :=
  if String.prefix pat s
  then rep ++ String.substring (String.length pat)
                               (String.length s - String.length pat) s
  else match s with
       | EmptyString => EmptyString
       | String c s' => String c (replace pat rep s')
       end.

(** [`${n}`] for a non-negative integer [n] *)
Definition of_nat (n : nat) : string :=
  NilZero.string_of_uint (Nat.to_uint n).

(** [xs.join(sep)] *)
Definition join (sep : string) (xs : list string) : string :=
  String.concat sep xs.

(** [xs.push(x)] and [xs.push(...ys)] *)
Definition push {A : Type} (xs : list A) (x : A) : list A := (xs ++ [x])%list.
Definition push_all {A : Type} (xs ys : list A) : list A := (xs ++ ys)%list.

(** A value read from a parsed JSON body.  The handlers only ask three
    things of such a value: whether it is truthy, whether it is strictly
    equal to a string literal, and what a template literal prints for
    it.  A value that is not a string (a number, a boolean, [null], an
    array, an object) is therefore kept as [Other truthy shown], with
    its truthiness and the text [String(v)] gives, or, when [String(v)]
    throws a TypeError, as [Unprintable]: an object with an own
    [toString] that is not a function, as [{"toString": 0}] parses to,
    or an array that holds one.  Such a value is truthy. *)
Inductive value : Type :=
| Undefined
| Str (s : string)
| Other (truthy : bool) (shown : string)
| Unprintable.

Definition truthy (v : value) : bool :=
  match v with
  | Undefined => false
  | Str s => negb (s =? "")
  | Other t _ => t
  | Unprintable => true
  end.

(** [v === 'lit'] *)
Definition is_str (v : value) (lit : string) : bool :=
  match v with
  | Str s => s =? lit
  | _ => false
  end.

(** [String(v)], which is what [`${v}`] prints: [None] when it throws. *)
Definition show (v : value) : option string :=
  match v with
  | Undefined => Some "undefined"
  | Str s => Some s
  | Other _ shown => Some shown
  | Unprintable => None
  end.

End JS.

(** What awaiting [fetch(url)] gives: a response with [response.ok], a
    response that is not ok and whose [response.text()] is [errorText], or
    a rejection (of [fetch] or of [response.text()]) with [error.message],
    or [String(error)], equal to [message]. *)
Inductive FetchOutcome : Type :=
| Ok
| NotOk (errorText : string)
| Rejected (message : string).

(** A response: [res.status(status).json(body)]. *)
Record Response (B : Type) : Type := mkResponse { status : nat; body : B }.
Arguments mkResponse {B} _ _.
Arguments status {B} _.
Arguments body {B} _.

(* ================================================================== *)
(** ** [/api/revalidate]                                               *)
(* ================================================================== *)

Module Revalidate.

(** A key of [req.query] or of [req.headers]:
    [string | string[] | undefined]. *)
Inductive param : Type :=
| Absent
| One (s : string)
| Many (l : list string).

Definition truthy (p : param) : bool :=
  match p with
  | Absent => false
  | One s => negb (s =? "")
  | Many _ => true
  end.

(** [a || b] *)
Definition or_else (a b : param) : param := if truthy a then a else b.

(** [Array.isArray(p) ? p : [p]], for a truthy [p] *)
Definition as_array (p : param) : list string :=
  match p with
  | Absent => []
  | One s => [s]
  | Many l => l
  end.

Record Request : Type := mkRequest {
  method : string;
  query_secret : param;              (* req.query.secret *)
  query_tag : param;                 (* req.query.tag *)
  query_path : param;                (* req.query.path *)
  header_secret : param              (* req.headers['x-revalidate-secret'] *)
}.

(** What the handler reads from outside the request:
    [process.env.REVALIDATE_SECRET], [Date.now()], and whether the
    [n]-th call of [res.revalidate], made on path [p], resolves
    ([true]) or rejects ([false]). *)
Record World : Type := mkWorld {
  REVALIDATE_SECRET : option string;
  now : Z;
  revalidate : nat -> string -> bool
}.

(** type RevalidateResponse | { error: string } *)
Inductive Body : Type :=
| Error (error : string)
| Revalidated (revalidated : bool) (now : Z) (message : string).

(** [secret !== process.env.REVALIDATE_SECRET] *)
Definition differs (secret : param) (expected : string) : bool :=
  match secret with
  | One s => negb (s =? expected)
  | Absent | Many _ => true
  end.

(** Lines 30-35: [true] when the request is turned away with 401. *)
Definition secret_rejected (w : World) (req : Request) : bool :=
  match REVALIDATE_SECRET w with
  | Some expected =>
      if negb (expected =? "")
      then differs (or_else (query_secret req) (header_secret req)) expected
      else false
  | None => false
  end.

(** Lines 74-95: one tag of the loop; the paths it pushes.  The last
    three branches only log. *)
Definition tag_paths (t : string) : list string :=
  if JS.startsWith "product:" t then
    let skuOrUrl := JS.replace "product:" "" t in
    ["/p/" ++ skuOrUrl]
  else if JS.startsWith "category:" t then
    let uidOrUrl := JS.replace "category:" "" t in
    ["/" ++ uidOrUrl]
  else if t =? "product" then []
  else if t =? "category" then []
  else [].

(** Lines 71-95: [paths] after the loop over [tags]. *)
Definition tags_to_paths (tags : list string) : list string :=
  fold_left (fun paths t => JS.push_all paths (tag_paths t)) tags [].

(** Lines 48-59 and 99-106: [revalidatedPaths] after the loop, the
    first call being call number [n]; a rejected call is caught and
    logged, and the loop goes on. *)
Fixpoint revalidate_loop (w : World) (n : nat) (paths : list string)
         (revalidatedPaths : list string) : list string :=
  match paths with
  | [] => revalidatedPaths
  | p :: rest =>
      if revalidate w n p
      then revalidate_loop w (S n) rest (JS.push revalidatedPaths p)
      else revalidate_loop w (S n) rest revalidatedPaths
  end.

(** The handler.  The elements of [req.query.path] and [req.query.tag]
    are strings, so the [typeof] tests of lines 49 and 75 hold; a
    rejected [res.revalidate] is caught inside the loops and nothing
    else in the [try] block throws, so the [catch] of line 116 is not
    reached.  The method of the request is not read. *)
Definition handler (w : World) (req : Request) : Response Body :=
  if secret_rejected w req then
    mkResponse 401 (Error "Invalid secret token")
  else if truthy (query_path req) then
    let paths := as_array (query_path req) in
    let revalidatedPaths := revalidate_loop w 0 paths [] in
    mkResponse 200
      (Revalidated true (now w)
         ("Revalidated " ++ JS.of_nat (List.length revalidatedPaths)
            ++ " paths: " ++ JS.join ", " revalidatedPaths))
  else if truthy (query_tag req) then
    let tags := as_array (query_tag req) in
    let paths := tags_to_paths tags in
    let revalidatedPaths := revalidate_loop w 0 paths [] in
    mkResponse 200
      (Revalidated true (now w)
         ("Revalidated " ++ JS.of_nat (List.length revalidatedPaths)
            ++ " paths from tags: " ++ JS.join ", " tags))
  else
    mkResponse 400 (Error "Missing tag or path parameter").

End Revalidate.

(* ================================================================== *)
(** ** [/api/webhook/magento]                                          *)
(* ================================================================== *)

Module Webhook.

(** The fields of [req.body.data] the handler reads.  [data?.f] is
    [JS.Undefined] when [data] is missing or has no field [f]. *)
Record Data : Type := mkData {
  url_key : JS.value;
  sku : JS.value;
  url_path : JS.value;
  uid : JS.value;
  identifier : JS.value
}.

Record Payload : Type := mkPayload {
  entity : JS.value;
  action : JS.value;
  data : Data
}.

(** [body] is [None] when [req.body] is [undefined] or [null]. *)
Record Request : Type := mkRequest {
  method : string;
  body : option Payload
}.

(** [fetch n path]: what the [n]-th call of
    [fetch(`${baseUrl}/api/revalidate?path=...`)], made for [path],
    comes back with. *)
Record World : Type := mkWorld {
  fetch : nat -> string -> FetchOutcome
}.

Inductive Body : Type :=
| Error (error : string)
| Success (success : bool) (message : string).

(** A computation of the [try] block: it returns, or throws into the
    handler's [catch], which answers 500. *)
Inductive outcome (A : Type) : Type :=
| Returns (a : A)
| Throws.
Arguments Returns {A} _.
Arguments Throws {A}.

Definition bind {A B : Type} (c : outcome A) (k : A -> outcome B) : outcome B :=
  match c with
  | Returns a => k a
  | Throws => Throws
  end.

Notation "x <- c ;; k" := (bind c (fun x => k))
  (at level 61, c at next level, right associativity).

(** [`${v}`] in the [try] block *)
Definition template (v : JS.value) : outcome string :=
  match JS.show v with
  | Some text => Returns text
  | None => Throws
  end.

(** Lines 46-58.  A product with a [sku] and no [url_key] is only
    logged; the two template literals print [data.url_key] and
    [data.sku]. *)
Definition product_paths (b : Payload) (paths : list string)
  : outcome (list string) :=
  if JS.is_str (entity b) "product" then
    paths <- (if JS.truthy (url_key (data b)) then
                key <- template (url_key (data b)) ;;
                Returns (JS.push paths ("/p/" ++ key))
              else Returns paths) ;;
    if negb (JS.truthy (url_key (data b))) && JS.truthy (sku (data b)) then
      warned <- template (sku (data b)) ;;
      Returns paths
    else Returns paths
  else Returns paths.

(** Lines 61-73.  [data.url_path.startsWith] is a function only when
    [data.url_path] is a string; calling it on another truthy value
    throws a TypeError.  A category with a [uid] and no [url_path] is
    only logged, by a template literal that prints [data.uid]. *)
Definition category_paths (b : Payload) (paths : list string)
  : outcome (list string) :=
  if JS.is_str (entity b) "category" then
    paths <- (if JS.truthy (url_path (data b)) then
                match url_path (data b) with
                | JS.Str url =>
                    let categoryPath :=
                      if JS.startsWith "/" url then url else "/" ++ url in
                    Returns (JS.push paths categoryPath)
                | _ => Throws
                end
              else Returns paths) ;;
    if negb (JS.truthy (url_path (data b))) && JS.truthy (uid (data b)) then
      warned <- template (uid (data b)) ;;
      Returns paths
    else Returns paths
  else Returns paths.

(** Lines 76-82; the template literal prints [data.identifier]. *)
Definition page_paths (b : Payload) (paths : list string)
  : outcome (list string) :=
  if JS.is_str (entity b) "page" || JS.is_str (entity b) "cms_page" then
    if JS.truthy (identifier (data b)) then
      id <- template (identifier (data b)) ;;
      Returns (JS.push paths ("/" ++ id))
    else Returns paths
  else Returns paths.

(** Lines 43-90: [paths] when line 92 is reached.  The [menu] and
    [layout] branch only logs, a text without a hole. *)
Definition translate (b : Payload) : outcome (list string) :=
  let paths := [] in
  paths <- product_paths b paths ;;
  paths <- category_paths b paths ;;
  paths <- page_paths b paths ;;
  Returns paths.

(** Line 121: the template literal of the last log prints [entity] and
    [action]. *)
Definition summary_log (b : Payload) : outcome unit :=
  entity <- template (entity b) ;;
  action <- template (action b) ;;
  Returns tt.

(** Lines 101-119: [revalidatedPaths] after the loop. *)
Fixpoint fetch_loop (w : World) (n : nat) (paths : list string)
         (revalidatedPaths : list string) : list string :=
  match paths with
  | [] => revalidatedPaths
  | path :: rest =>
      match fetch w n path with
      | Ok => fetch_loop w (S n) rest (JS.push revalidatedPaths path)
      | NotOk _ | Rejected _ => fetch_loop w (S n) rest revalidatedPaths
      end
  end.

Definition handler (w : World) (req : Request) : Response Body :=
  if negb (method req =? "POST") then
    mkResponse 405 (Error "Method not allowed")
  else
    match body req with
    | None =>
        (* destructuring [undefined] throws *)
        mkResponse 500 (Error "Internal server error")
    | Some b =>
        if negb (JS.truthy (entity b)) || negb (JS.truthy (action b)) then
          mkResponse 400 (Error "Missing entity or action")
        else
          match translate b with
          | Throws => mkResponse 500 (Error "Internal server error")
          | Returns paths =>
              if (List.length paths =? 0)%nat then
                mkResponse 400 (Error "Unknown entity type or missing path data")
              else
                let revalidatedPaths := fetch_loop w 0 paths [] in
                match summary_log b with
                | Throws => mkResponse 500 (Error "Internal server error")
                | Returns _ =>
                    mkResponse 200
                      (Success true
                         ("Revalidated "
                            ++ JS.of_nat (List.length revalidatedPaths)
                            ++ " paths"))
                end
          end
    end.

End Webhook.

(* ================================================================== *)
(** ** [/api/revalidate-all]                                           *)
(* ================================================================== *)

Module RevalidateAll.

(** [req.body?.locales]: missing or falsy (the handler then takes
    [['tr']]), something [for ... of] iterates over, yielding the
    locales [l], or a truthy value that is not iterable, on which
    [for ... of] throws a TypeError saying [message]. *)
Inductive Locales : Type :=
| Missing
| Listed (l : list string)
| NotIterable (message : string).

Record Request : Type := mkRequest {
  method : string;
  locales : Locales
}.

(** What the two enumerators give for one locale: they throw, with
    [error.message] (or [String(error)]) equal to [message], or they
    return routes, of which [products] lists [productPath(...)] and
    [categories] lists [productListLink(...)], route by route. *)
Inductive StaticPaths : Type :=
| Failed (message : string)
| Found (products categories : list string).

(** The outside world of one request:
    - [static_paths n locale]: the enumerators' answer at the [n]-th
      turn of the loop over the locales;
    - [fetch path]: what [fetch] comes back with for [path] (a path is
      fetched once at most, so the path tells the call);
    - [settle_order k batch]: the order in which the callbacks of the
      [k]-th batch run to their end.  The runtime decides it; it is
      a rearrangement of [batch] (see [fair]);
    - [max_arguments]: the most arguments the engine lets a call have;
      a call given more throws a RangeError, whose [error.message] is
      [range_error]. *)
Record World : Type := mkWorld {
  static_paths : nat -> string -> StaticPaths;
  fetch : string -> FetchOutcome;
  settle_order : nat -> list string -> list string;
  max_arguments : nat;
  range_error : string
}.

(** Every callback of a batch runs to its end, once. *)
Definition fair (w : World) : Prop :=
  forall k batch, Permutation batch (settle_order w k batch).

(** Lines 145 and 155: [p.startsWith('/') ? p : `/${p}`] *)
Definition with_slash (p : string) : string :=
  if JS.startsWith "/" p then p else "/" ++ p.

(** Whether [allPaths.push(...productPaths, ...categoryPaths)] (line
    158) can be called: every path is one argument. *)
Definition fits (w : World) (productPaths categoryPaths : list string) : bool :=
  (List.length productPaths + List.length categoryPaths <=? max_arguments w)%nat.

(** Lines 134-165: [(allPaths, errors)] after the loop over the
    locales, [n] turns having been made already.  What the enumerators
    or the call of [push] throw lands in the [catch] of the locale. *)
Fixpoint gather (w : World) (n : nat) (locales : list string)
         (allPaths errors : list string) : list string * list string :=
  match locales with
  | [] => (allPaths, errors)
  | locale :: rest =>
      match static_paths w n locale with
      | Found products categories =>
          let productPaths := map with_slash products in
          let categoryPaths := map with_slash categories in
          if fits w productPaths categoryPaths then
            gather w (S n) rest
                   (JS.push_all (JS.push_all allPaths productPaths) categoryPaths)
                   errors
          else
            let errorMsg :=
              "Error fetching paths for locale " ++ locale ++ ": "
                ++ range_error w in
            gather w (S n) rest allPaths (JS.push errors errorMsg)
      | Failed message =>
          let errorMsg :=
            "Error fetching paths for locale " ++ locale ++ ": " ++ message in
          gather w (S n) rest allPaths (JS.push errors errorMsg)
      end
  end.

(** [set.add(x)] on a [Set] of strings kept in insertion order *)
Definition set_add (set : list string) (x : string) : list string :=
  if existsb (String.eqb x) set then set else JS.push set x.

(** Line 168: [[...new Set(allPaths)]] *)
Definition unique (allPaths : list string) : list string :=
  fold_left set_add allPaths [].

(** [xs.slice(i, j)] for [i <= j] *)
Definition slice {A : Type} (i j : nat) (xs : list A) : list A :=
  firstn (j - i) (skipn i xs).

Definition batchSize : nat := 10.

(** What a run leaves behind.  [Issued k path]: the callback for
    [path] in batch number [k] called [fetch]; [Settled k path]: that
    callback's promise settled. *)
Inductive Event : Type :=
| Issued (wave : nat) (path : string)
| Settled (wave : nat) (path : string).

(** The variables the batch loop updates, and the events so far. *)
Record State : Type := mkState {
  revalidatedCount : nat;
  errors : list string;
  trace : list Event
}.

(** Lines 181-186: the callback runs up to its first [await]. *)
Definition issue (k : nat) (st : State) (path : string) : State :=
  mkState (revalidatedCount st) (errors st) (JS.push (trace st) (Issued k path)).

(** Lines 188-199: the rest of the callback.  It never rejects: what
    [fetch] or [response.text()] throws is caught and recorded. *)
Definition settle (w : World) (k : nat) (st : State) (path : string) : State :=
  match fetch w path with
  | Ok =>
      mkState (S (revalidatedCount st)) (errors st)
              (JS.push (trace st) (Settled k path))
  | NotOk errorText =>
      mkState (revalidatedCount st)
              (JS.push (errors st)
                       ("Failed to revalidate " ++ path ++ ": " ++ errorText))
              (JS.push (trace st) (Settled k path))
  | Rejected message =>
      mkState (revalidatedCount st)
              (JS.push (errors st)
                       ("Error revalidating " ++ path ++ ": " ++ message))
              (JS.push (trace st) (Settled k path))
  end.

(** Lines 178-201: [await Promise.all(batch.map(async (path) => ...))].
    [map] starts the callbacks in order, each running up to its
    [await fetch(...)]; they then finish in the order the world
    decides, and [Promise.all] resolves when the last has. *)
Definition run_batch (w : World) (k : nat) (batch : list string) (st : State)
  : State :=
  fold_left (settle w k) (settle_order w k batch) (fold_left (issue k) batch st).

(** Lines 175-202: the loop, at index [i] and batch number [k].
    [None]: [fuel] turns were not enough to leave it. *)
Fixpoint batch_loop (w : World) (uniquePaths : list string)
         (fuel i k : nat) (st : State) : option (nat * State) :=
  match fuel with
  | 0 => None
  | S fuel' =>
      if (i <? List.length uniquePaths)%nat then
        let batch := slice i (i + batchSize) uniquePaths in
        batch_loop w uniquePaths fuel' (i + batchSize) (S k) (run_batch w k batch st)
      else Some (k, st)
  end.

(** The state when the loop is left, and the number of batches run. *)
Record Run : Type := mkRun {
  uniquePaths : list string;
  waves : nat;
  final : State
}.

(** Lines 167-202: the batch orchestrator, from [allPaths] and the
    [errors] recorded while gathering them. *)
Definition orchestrate (w : World) (allPaths errors : list string) : option Run :=
  let uniquePaths := unique allPaths in
  let revalidatedCount := 0 in
  match batch_loop w uniquePaths (S (List.length uniquePaths)) 0 0
                   (mkState revalidatedCount errors []) with
  | Some (k, st) => Some (mkRun uniquePaths k st)
  | None => None
  end.

Inductive Body : Type :=
| Error (error : string)
| Summary (success : bool) (message : string)
          (products categories total : nat)
          (errors : option (list string)).

(** Lines 204-218. *)
Definition summary (r : Run) : Response Body :=
  let revalidatedCount := revalidatedCount (final r) in
  let errors := errors (final r) in
  let productCount :=
    List.length (filter (fun p => JS.startsWith "/p/" p) (uniquePaths r)) in
  let categoryCount :=
    List.length (filter (fun p => negb (JS.startsWith "/p/" p) && negb (p =? "/"))
                        (uniquePaths r)) in
  mkResponse 200
    (Summary true
       ("Revalidated " ++ JS.of_nat revalidatedCount ++ " out of "
          ++ JS.of_nat (List.length (uniquePaths r)) ++ " paths")
       productCount categoryCount revalidatedCount
       (if (0 <? List.length errors)%nat then Some (slice 0 10 errors) else None)).

(** Lines 130-218, once [locales] is known to be iterable: the
    response, and the events of the run. *)
Definition respond (w : World) (locales : list string)
  : option (Response Body * list Event) :=
  let (allPaths, errors) := gather w 0 locales [] [] in
  match orchestrate w allPaths errors with
  | Some r => Some (summary r, trace (final r))
  | None => None
  end.

(** The response, and the events of the run.  [None]: the batch loop
    ran out of fuel (it never does, see [handler_responds]). *)
Definition handler (w : World) (req : Request)
  : option (Response Body * list Event) :=
  if negb (method req =? "GET") && negb (method req =? "POST") then
    Some (mkResponse 405 (Error "Method not allowed"), [])
  else
    match locales req with
    | Missing => respond w ["tr"]
    | Listed l => respond w l
    | NotIterable message =>
        Some (mkResponse 500 (Error ("Internal server error: " ++ message)), [])
    end.

End RevalidateAll.

(* ================================================================== *)
(** ** Sample requests and worlds                                      *)
(* ================================================================== *)

Module Samples.

(** No secret configured; every [res.revalidate] resolves. *)
Definition open_world : Revalidate.World :=
  Revalidate.mkWorld None 0%Z (fun _ _ => true).

(** [REVALIDATE_SECRET=s3cret]; every [res.revalidate] rejects. *)
Definition guarded_world : Revalidate.World :=
  Revalidate.mkWorld (Some "s3cret") 0%Z (fun _ _ => false).

(** [DELETE /api/revalidate?path=/p/shoe] *)
Definition delete_request : Revalidate.Request :=
  Revalidate.mkRequest "DELETE" Revalidate.Absent Revalidate.Absent
                       (Revalidate.One "/p/shoe") Revalidate.Absent.

(** [GET /api/revalidate?tag=product:ABC123&path=/x], no secret *)
Definition anonymous_request : Revalidate.Request :=
  Revalidate.mkRequest "GET" Revalidate.Absent (Revalidate.One "product:ABC123")
                       (Revalidate.One "/x") Revalidate.Absent.

(** [GET /api/revalidate?secret=s3cret&tag=product:ABC123&tag=category:shoes] *)
Definition tagged_request : Revalidate.Request :=
  Revalidate.mkRequest "GET" (Revalidate.One "s3cret")
                       (Revalidate.Many ["product:ABC123"; "category:shoes"])
                       Revalidate.Absent Revalidate.Absent.

(** Every [fetch] of the webhook handler comes back ok. *)
Definition webhook_world : Webhook.World := Webhook.mkWorld (fun _ _ => Ok).

(** [{entity:"category", action:"update", data:{url_path:"men/shoes"}}] *)
Definition category_payload : Webhook.Payload :=
  Webhook.mkPayload (JS.Str "category") (JS.Str "update")
    (Webhook.mkData JS.Undefined JS.Undefined (JS.Str "men/shoes")
                    JS.Undefined JS.Undefined).




(** Twelve products, the third failing, listed twice over; callbacks
    finish in the reverse of the order they were started. *)
Definition twelve_products : list string :=
  ["/p/01"; "/p/02"; "/p/03"; "/p/04"; "/p/05"; "/p/06";
   "/p/07"; "/p/08"; "/p/09"; "/p/10"; "/p/11"; "/p/12"].

Definition shop_world : RevalidateAll.World :=
  RevalidateAll.mkWorld
    (fun _ _ => RevalidateAll.Found twelve_products ["men"; "/p/01"])
    (fun path => if path =? "/p/03" then Rejected "timeout" else Ok)
    (fun _ batch => rev batch)
    1000 "Maximum call stack size exceeded".

Definition shop_request : RevalidateAll.Request :=
  RevalidateAll.mkRequest "GET" RevalidateAll.Missing.

Definition put_request : RevalidateAll.Request :=
  RevalidateAll.mkRequest "PUT" RevalidateAll.Missing.

End Samples.

(* ================================================================== *)
(** ** Vocabulary of the properties                                    *)
(* ================================================================== *)

(** The path begins with [/]. *)
Definition slashed (p : string) : Prop := JS.startsWith "/" p = true.

(** The paths [fetch] was called for, in the order of the calls. *)
Fixpoint dispatched (tr : list RevalidateAll.Event) : list string :=
  match tr with
  | [] => []
  | RevalidateAll.Issued _ path :: tr' => path :: dispatched tr'
  | RevalidateAll.Settled _ _ :: tr' => dispatched tr'
  end.

(** [fetch] comes back ok for the path. *)
Definition succeeds (w : RevalidateAll.World) (path : string) : bool :=
  match RevalidateAll.fetch w path with
  | Ok => true
  | NotOk _ | Rejected _ => false
  end.

(** The error message the callback of [path] records, if it records one
    (lines 195 and 198). *)
Definition failure (w : RevalidateAll.World) (path : string) : list string :=
  match RevalidateAll.fetch w path with
  | Ok => []
  | NotOk errorText => ["Failed to revalidate " ++ path ++ ": " ++ errorText]
  | Rejected message => ["Error revalidating " ++ path ++ ": " ++ message]
  end.

(** The [k]-th batch of ten, counting from 0. *)
Definition chunk (k : nat) (paths : list string) : list string :=
  RevalidateAll.slice (k * RevalidateAll.batchSize)
                      (k * RevalidateAll.batchSize + RevalidateAll.batchSize) paths.

(** What holds of the loop variables whenever the loop condition of
    line 175 is tested, with [i] the index, [k] the number of batches
    run and [errors0] the errors recorded before the loop. *)
Definition loop_invariant (w : RevalidateAll.World) (paths errors0 : list string)
           (i k : nat) (st : RevalidateAll.State) : Prop :=
  i = k * RevalidateAll.batchSize
  /\ i < List.length paths + RevalidateAll.batchSize
  /\ dispatched (RevalidateAll.trace st) = firstn i paths
  /\ (RevalidateAll.fair w ->
      RevalidateAll.revalidatedCount st
      = List.length (filter (succeeds w) (firstn i paths))
      /\ exists es, RevalidateAll.errors st = (errors0 ++ es)%list
                    /\ Permutation es (flat_map (failure w) (firstn i paths))).

(** What holds of the events: the calls issued are those of the batches
    run so far, batch by batch; every call of those batches has settled;
    and when a call of a batch is issued, the calls of all earlier
    batches have settled. *)
Definition trace_invariant (w : RevalidateAll.World) (paths : list string)
           (i k : nat) (st : RevalidateAll.State) : Prop :=
  let tr := RevalidateAll.trace st in
  i = k * RevalidateAll.batchSize
  /\ (forall j p, In (RevalidateAll.Issued j p) tr <-> j < k /\ In p (chunk j paths))
  /\ (RevalidateAll.fair w ->
      (forall j q, j < k -> In q (chunk j paths) -> In (RevalidateAll.Settled j q) tr)
      /\ (forall j j' p q pre post,
             j' < j ->
             tr = (pre ++ RevalidateAll.Issued j p :: post)%list ->
             In q (chunk j' paths) ->
             In (RevalidateAll.Settled j' q) pre)).

(** The same request to [/api/revalidate], sent with the method [m]. *)
Definition with_method (m : string) (req : Revalidate.Request) : Revalidate.Request :=
  Revalidate.mkRequest m (Revalidate.query_secret req) (Revalidate.query_tag req)
                       (Revalidate.query_path req) (Revalidate.header_secret req).

(** The locales the handler loops over, when [req.body?.locales] can be
    iterated. *)
Definition iterated (ls : RevalidateAll.Locales) : option (list string) :=
  match ls with
  | RevalidateAll.Missing => Some ["tr"]
  | RevalidateAll.Listed l => Some l
  | RevalidateAll.NotIterable _ => None
  end.

(* ================================================================== *)
(** ** The tag builders and the client helpers                         *)
(* ================================================================== *)

(** [REVALIDATE_TAGS], lines 1-18. *)
Module REVALIDATE_TAGS.

Definition PRODUCT : string := "product".
Definition PRODUCT_BY_SKU (sku : string) : string := "product:" ++ sku.
Definition PRODUCT_BY_URL (urlKey : string) : string := "product:url:" ++ urlKey.

Definition CATEGORY : string := "category".
Definition CATEGORY_BY_UID (uid : string) : string := "category:" ++ uid.
Definition CATEGORY_BY_URL (urlPath : string) : string := "category:url:" ++ urlPath.

Definition PAGE : string := "page".
Definition PAGE_BY_IDENTIFIER (identifier : string) : string := "page:" ++ identifier.

Definition LAYOUT : string := "layout".
Definition MENU : string := "menu".

Definition ALL : string := "all".

End REVALIDATE_TAGS.

(** [revalidateByTag] and [revalidateByPath], lines 21-80. *)
Module Client.

(** The first argument, [string | string[]]. *)
Inductive arg : Type :=
| Single (s : string)
| Several (l : list string).

(** [Array.isArray(a) ? a : [a]] *)
Definition to_array (a : arg) : list string :=
  match a with
  | Single s => [s]
  | Several l => l
  end.

(** A [URLSearchParams]: its entries, in the order they were appended. *)
Definition URLSearchParams : Type := list (string * string).

(** [params.append(name, value)] *)
Definition append (params : URLSearchParams) (name value : string)
  : URLSearchParams :=
  JS.push params (name, value).

(** [if (secret)], for [secret?: string] *)
Definition given (secret : option string) : bool :=
  match secret with
  | Some s => negb (s =? "")
  | None => false
  end.

(** What is handed to [fetch]: the query of the URL, the method and the
    headers. *)
Record Fetch : Type := mkFetch {
  params : URLSearchParams;
  method : string;
  headers : list (string * string)
}.

(** Lines 22-37 and 54-69, which differ in the name of the parameter
    only: the request the helper sends. *)
Definition request (name : string) (a : arg) (secret : option string) : Fetch :=
  let values := to_array a in
  let params := fold_left (fun params v => append params name v) values [] in
  let params :=
    match secret with
    | Some s => if given secret then append params "secret" s else params
    | None => params
    end in
  mkFetch params "GET"
          (match secret with
           | Some s => if given secret then [("x-revalidate-secret", s)] else []
           | None => []
           end).

(** What the helper's promise settles to. *)
Inductive result (J : Type) : Type :=
| Resolved (json : J)
| Thrown (message : string).
Arguments Resolved {J} _.
Arguments Thrown {J} _.

(** Lines 39-47 and 71-79, for a response with [response.ok],
    [response.statusText] and [await response.json()] as given. *)
Definition settle {J : Type} (ok : bool) (statusText : string) (json : J)
  : result J :=
  if ok then Resolved json
  else Thrown ("Revalidation failed: " ++ statusText).

End Client.

(* ================================================================== *)
(** ** The endpoints calling one another                               *)
(* ================================================================== *)

(** The helpers, the webhook and [/api/revalidate-all] all send their
    requests to [/api/revalidate].  A request that reaches the handler
    is received as it was sent: the query is read back entry by entry,
    a name given once as a string and a name given several times as an
    array, which is what [Array.isArray] in the handler reckons with.
    (A string stands for the UTF-8 bytes of a well-formed JavaScript
    string, which is what the query carries.) *)
Module Deployment.

(** [response.ok]: the status is in the range 200-299. *)
Definition ok (status : nat) : bool :=
  ((200 <=? status) && (status <=? 299))%nat.

(** [req.query[name]] *)
Definition query (params : Client.URLSearchParams) (name : string)
  : Revalidate.param :=
  match map snd (filter (fun entry => fst entry =? name) params) with
  | [] => Revalidate.Absent
  | [value] => Revalidate.One value
  | values => Revalidate.Many values
  end.

(** An HTTP whitespace byte: tab, line feed, carriage return, space. *)
Definition http_space (c : ascii) : bool :=
  let n := nat_of_ascii c in
  ((n =? 9) || (n =? 10) || (n =? 13) || (n =? 32))%nat.

Fixpoint strip_left (s : string) : string :=
  match s with
  | EmptyString => EmptyString
  | String c s' => if http_space c then strip_left s' else s
  end.

Fixpoint strip_right (s : string) : string :=
  match s with
  | EmptyString => EmptyString
  | String c s' =>
      match strip_right s' with
      | EmptyString => if http_space c then EmptyString else String c EmptyString
      | kept => String c kept
      end
  end.

(** A header value as [fetch] sends it: without leading and trailing
    HTTP whitespace. *)
Definition normalised (value : string) : string :=
  strip_right (strip_left value).

(** [req.headers[name]], for a header sent at most once *)
Definition header (headers : list (string * string)) (name : string)
  : Revalidate.param :=
  match filter (fun entry => fst entry =? name) headers with
  | [] => Revalidate.Absent
  | (_, value) :: _ => Revalidate.One (normalised value)
  end.

Definition received (f : Client.Fetch) : Revalidate.Request :=
  Revalidate.mkRequest (Client.method f)
                       (query (Client.params f) "secret")
                       (query (Client.params f) "tag")
                       (query (Client.params f) "path")
                       (header (Client.headers f) "x-revalidate-secret").

(** What becomes of a request handed to [fetch], on its way to the
    handler:
    - [Served]: it reaches the handler of [/api/revalidate], whose
      response comes back;
    - [Fails message]: the promise of [fetch] (or of reading the
      response) rejects, with an error saying [message]: [fetch] throws
      a TypeError for a header value that holds a character above
      U+00FF, a line feed or a NUL; the network may fail;
    - [Answered status json]: someone answers in the handler's place,
      with this status and body: the server itself answers 431 to a
      request line longer than it takes. *)
Inductive Delivery : Type :=
| Served
| Fails (message : string)
| Answered (status : nat) (json : Revalidate.Body).

(** The way from a caller to the handler: what becomes of each request. *)
Definition Transport : Type := Client.Fetch -> Delivery.

(** [revalidateByTag(tag, secret)] and [revalidateByPath(path, secret)]
    run over [transport] against a server in the world [rw] whose
    status line for the status [n] reads [statusText n].  What [fetch]
    throws is logged and thrown again (lines 44-47). *)
Definition call (name : string) (transport : Transport) (rw : Revalidate.World)
           (statusText : nat -> string)
           (a : Client.arg) (secret : option string)
  : Client.result Revalidate.Body :=
  let sent := Client.request name a secret in
  match transport sent with
  | Served =>
      let response := Revalidate.handler rw (received sent) in
      Client.settle (ok (status response)) (statusText (status response))
                    (body response)
  | Fails message => Client.Thrown message
  | Answered status json => Client.settle (ok status) (statusText status) json
  end.

Definition revalidateByTag := call "tag".
Definition revalidateByPath := call "path".

(** The request of lines 103-108 of the webhook and 181-186 of
    [/api/revalidate-all]: one [path], method GET, no secret. *)
Definition path_fetch (path : string) : Client.Fetch :=
  Client.mkFetch (Client.append [] "path" path) "GET" [].

(** What that [fetch] comes back with, [text] being how the server
    writes a body out. *)
Definition answer (rw : Revalidate.World) (text : Revalidate.Body -> string)
           (path : string) : FetchOutcome :=
  let response := Revalidate.handler rw (received (path_fetch path)) in
  if ok (status response) then Ok else NotOk (text (body response)).

(** What that [fetch] comes back with over [transport]. *)
Definition fetched (transport : Transport) (rw : Revalidate.World)
           (text : Revalidate.Body -> string) (path : string) : FetchOutcome :=
  match transport (path_fetch path) with
  | Served => answer rw text path
  | Fails message => Rejected message
  | Answered status json => if ok status then Ok else NotOk (text json)
  end.

(** The webhook's world when its calls go over [transport] and the
    [n]-th, if it is served, is served in [rw n]. *)
Definition webhook_via (transport : Transport) (rw : nat -> Revalidate.World)
           (text : Revalidate.Body -> string) : Webhook.World :=
  Webhook.mkWorld (fun n path => fetched transport (rw n) text path).

(** The world of [/api/revalidate-all] when the call for [path] is
    served in [rw path]. *)
Definition all_world (rw : string -> Revalidate.World)
           (text : Revalidate.Body -> string)
           (static_paths : nat -> string -> RevalidateAll.StaticPaths)
           (settle_order : nat -> list string -> list string)
           (max_arguments : nat) (range_error : string)
  : RevalidateAll.World :=
  RevalidateAll.mkWorld static_paths (fun path => answer (rw path) text path)
                        settle_order max_arguments range_error.

End Deployment.

(* ================================================================== *)
(** ** More vocabulary, and more samples                               *)
(* ================================================================== *)

(** The same request to [/api/revalidate], with the tag parameter [t]. *)
Definition with_tag (t : Revalidate.param) (req : Revalidate.Request)
  : Revalidate.Request :=
  Revalidate.mkRequest (Revalidate.method req) (Revalidate.query_secret req) t
                       (Revalidate.query_path req) (Revalidate.header_secret req).

(** The tag has neither of the prefixes the tag loop looks for. *)
Definition unprefixed (t : string) : bool :=
  negb (JS.startsWith "product:" t) && negb (JS.startsWith "category:" t).

(** The paths of [paths] whose call of [res.revalidate] resolves, the
    first path being call number [n]. *)
Definition resolved (w : Revalidate.World) (n : nat) (paths : list string)
  : list string :=
  map snd (filter (fun call => Revalidate.revalidate w (fst call) (snd call))
                  (combine (seq n (List.length paths)) paths)).

(** The same payload with the action [a]. *)
Definition with_action (a : JS.value) (b : Webhook.Payload) : Webhook.Payload :=
  Webhook.mkPayload (Webhook.entity b) a (Webhook.data b).

(** The entity is one the webhook has a path for. *)
Definition pathful (entity : JS.value) : bool :=
  JS.is_str entity "product" || JS.is_str entity "category"
  || JS.is_str entity "page" || JS.is_str entity "cms_page".

(** How many calls a trace issues, and how many it sees settle. *)
Fixpoint issues (tr : list RevalidateAll.Event) : nat :=
  match tr with
  | [] => 0
  | RevalidateAll.Issued _ _ :: tr' => S (issues tr')
  | RevalidateAll.Settled _ _ :: tr' => issues tr'
  end.

Fixpoint settles (tr : list RevalidateAll.Event) : nat :=
  match tr with
  | [] => 0
  | RevalidateAll.Issued _ _ :: tr' => settles tr'
  | RevalidateAll.Settled _ _ :: tr' => S (settles tr')
  end.

(** What the loop keeps of the calls in flight: between two batches
    none is, and at no moment were more than ten. *)
Definition flight_invariant (w : RevalidateAll.World) (st : RevalidateAll.State)
  : Prop :=
  RevalidateAll.fair w ->
  issues (RevalidateAll.trace st) = settles (RevalidateAll.trace st)
  /\ forall pre post,
      RevalidateAll.trace st = (pre ++ post)%list ->
      settles pre <= issues pre <= settles pre + RevalidateAll.batchSize.

(** The strings of [l] that are not in [seen]. *)
Definition unseen (seen l : list string) : list string :=
  filter (fun y => negb (existsb (String.eqb y) seen)) l.

(** The values a query parameter must have for the handler to take it up:
    not none, and not a single empty one. *)
Definition usable (values : list string) : bool :=
  match values with
  | [] => false
  | [value] => negb (value =? "")
  | _ => true
  end.

(** The locales of a request with the turn of the loop that takes each,
    [n] turns having been made before. *)
Definition turns (n : nat) (locales : list string) : list (nat * string) :=
  combine (seq n (List.length locales)) locales.

(** The paths added to [allPaths] at one turn, with their leading [/],
    products first; none when the enumerators fail or list more than
    [push] can be called with. *)
Definition listed (w : RevalidateAll.World) (turn : nat * string) : list string :=
  match RevalidateAll.static_paths w (fst turn) (snd turn) with
  | RevalidateAll.Found products categories =>
      if RevalidateAll.fits w (map RevalidateAll.with_slash products)
                              (map RevalidateAll.with_slash categories)
      then (map RevalidateAll.with_slash products
              ++ map RevalidateAll.with_slash categories)%list
      else []
  | RevalidateAll.Failed _ => []
  end.

(** The error recorded at one turn, when the enumerators or the call of
    [push] throw (line 161). *)
Definition refused (w : RevalidateAll.World) (turn : nat * string) : list string :=
  match RevalidateAll.static_paths w (fst turn) (snd turn) with
  | RevalidateAll.Found products categories =>
      if RevalidateAll.fits w (map RevalidateAll.with_slash products)
                              (map RevalidateAll.with_slash categories)
      then []
      else ["Error fetching paths for locale " ++ snd turn ++ ": "
              ++ RevalidateAll.range_error w]
  | RevalidateAll.Failed message =>
      ["Error fetching paths for locale " ++ snd turn ++ ": " ++ message]
  end.

Module MoreSamples.

(** [REVALIDATE_SECRET=s3cret]; [res.revalidate] rejects everything. *)
Definition guarded (n : nat) : Revalidate.World := Samples.guarded_world.

(** No secret; [res.revalidate] rejects everything. *)
Definition failing_world : Revalidate.World :=
  Revalidate.mkWorld None 0%Z (fun _ _ => false).

(** How the samples write a body out. *)
Definition text (b : Revalidate.Body) : string :=
  match b with
  | Revalidate.Error error => error
  | Revalidate.Revalidated _ _ message => message
  end.

Definition status_text (status : nat) : string :=
  if (status =? 401)%nat then "Unauthorized" else "Bad Request".

(** Every request reaches the handler. *)
Definition direct : Deployment.Transport := fun _ => Deployment.Served.

(** A server that answers 431 to a query of more than four entries or
    with a value of more than forty bytes. *)
Definition narrow : Deployment.Transport :=
  fun f =>
    if forallb (fun entry => (String.length (snd entry) <=? 40)%nat)
               (Client.params f)
       && (List.length (Client.params f) <=? 4)%nat
    then Deployment.Served
    else Deployment.Answered 431 (Revalidate.Error "Request Header Fields Too Large").

(** [{entity:"product", action:"update", data:{url_key:"shoe", sku:"S1"}}] *)
Definition product_payload : Webhook.Payload :=
  Webhook.mkPayload (JS.Str "product") (JS.Str "update")
    (Webhook.mkData (JS.Str "shoe") (JS.Str "S1") JS.Undefined
                    JS.Undefined JS.Undefined).

(** [{entity:"menu", action:"update"}] *)
Definition menu_payload : Webhook.Payload :=
  Webhook.mkPayload (JS.Str "menu") (JS.Str "update")
    (Webhook.mkData JS.Undefined JS.Undefined JS.Undefined
                    JS.Undefined JS.Undefined).

(** [GET /api/revalidate?tag=product&tag=layout&tag=all] *)
Definition bare_tags_request : Revalidate.Request :=
  Revalidate.mkRequest "GET" Revalidate.Absent
                       (Revalidate.Many ["product"; "layout"; "all"])
                       Revalidate.Absent Revalidate.Absent.



(** Every locale lists the thirteen paths of the shop and every fetch
    comes back ok. *)
Definition calm_world : RevalidateAll.World :=
  RevalidateAll.mkWorld
    (fun _ _ => RevalidateAll.Found Samples.twelve_products ["men"; "/p/01"])
    (fun _ => Ok) (fun _ batch => rev batch)
    1000 "Maximum call stack size exceeded".

(** An engine that lets a call have three arguments: the shop's paths
    are too many for [push]. *)
Definition cramped_world : RevalidateAll.World :=
  RevalidateAll.mkWorld
    (fun _ _ => RevalidateAll.Found Samples.twelve_products ["men"; "/p/01"])
    (fun _ => Ok) (fun _ batch => rev batch)
    3 "Maximum call stack size exceeded".

(** The events of [Samples.shop_request] in [Samples.shop_world]. *)
Definition shop_trace : list RevalidateAll.Event :=
  match RevalidateAll.handler Samples.shop_world Samples.shop_request with
  | Some (_, tr) => tr
  | None => []
  end.


End MoreSamples.

(* ================================================================== *)
(** ** Facts about the string operations                               *)
(* ================================================================== *)

Lemma substring_whole (s : string) : String.substring 0 (String.length s) s = s.
Proof. induction s as [|c s IH]; simpl; [reflexivity | now rewrite IH]. Qed.

Lemma prefix_app (pat s : string) : String.prefix pat (pat ++ s) = true.
Proof.
  induction pat as [|c pat IH]; simpl.
  - now destruct s.
  - destruct (ascii_dec c c); [exact IH | congruence].
Qed.

Lemma substring_after (pat s : string) :
  String.substring (String.length pat)
                   (String.length (pat ++ s) - String.length pat) (pat ++ s) = s.
Proof.
  induction pat as [|c pat IH]; simpl.
  - rewrite Nat.sub_0_r. apply substring_whole.
  - exact IH.
Qed.

Lemma replace_unfold (pat rep s : string) :
  JS.replace pat rep s
  = if String.prefix pat s
    then rep ++ String.substring (String.length pat)
                                 (String.length s - String.length pat) s
    else match s with
         | EmptyString => EmptyString
         | String c s' => String c (JS.replace pat rep s')
         end.
Proof. destruct s; reflexivity. Qed.

(** A pattern found at the very start is what [replace] removes. *)
Lemma replace_at_head (pat s : string) : JS.replace pat "" (pat ++ s) = s.
Proof.
  rewrite replace_unfold, prefix_app, substring_after. reflexivity.
Qed.

Example replace_first_only :
  JS.replace "product:" "" "product:product:x" = "product:x".
Proof. reflexivity. Qed.

Example of_nat_12 : JS.of_nat 12 = "12" /\ JS.of_nat 0 = "0".
Proof. split; reflexivity. Qed.

(* ================================================================== *)
(** ** [/api/revalidate]: tags, secret, response                       *)
(* ================================================================== *)

Section RevalidateFacts.

Import Revalidate.

Lemma tags_to_paths_flat_map (tags : list string) :
  tags_to_paths tags = flat_map tag_paths tags.
Proof.
  unfold tags_to_paths.
  assert (H : forall acc,
             fold_left (fun paths t => JS.push_all paths (tag_paths t)) tags acc
             = (acc ++ flat_map tag_paths tags)%list).
  { induction tags as [|t tags IH]; intros acc; simpl.
    - now rewrite app_nil_r.
    - rewrite IH. unfold JS.push_all. now rewrite <- app_assoc. }
  apply (H []).
Qed.

Lemma tag_paths_product (X : string) : tag_paths ("product:" ++ X) = ["/p/" ++ X].
Proof.
  unfold tag_paths.
  unfold JS.startsWith. rewrite prefix_app.
  now rewrite replace_at_head.
Qed.

Lemma tag_paths_category (X : string) : tag_paths ("category:" ++ X) = ["/" ++ X].
Proof.
  unfold tag_paths.
  replace (JS.startsWith "product:" ("category:" ++ X)) with false by reflexivity.
  unfold JS.startsWith. rewrite prefix_app.
  now rewrite replace_at_head.
Qed.

(** C3.  For every string [X], the tag [product:X] is translated to the
    single path [/p/X] and the tag [category:X] to the single path [/X]:
    this is what the loop pushes for that tag (wherever the tag stands
    in the list), and all that a request with that one tag yields. *)
Theorem tag_translation (X : string) :
  tag_paths ("product:" ++ X) = ["/p/" ++ X]
  /\ tag_paths ("category:" ++ X) = ["/" ++ X]
  /\ tags_to_paths (as_array (One ("product:" ++ X))) = ["/p/" ++ X]
  /\ tags_to_paths (as_array (One ("category:" ++ X))) = ["/" ++ X].
Proof.
  repeat split.
  - apply tag_paths_product.
  - apply tag_paths_category.
  - rewrite tags_to_paths_flat_map. unfold as_array. cbn [flat_map].
    rewrite tag_paths_product. apply app_nil_r.
  - rewrite tags_to_paths_flat_map. unfold as_array. cbn [flat_map].
    rewrite tag_paths_category. apply app_nil_r.
Qed.

Example spec_tag_examples :
  tags_to_paths ["product:ABC123"] = ["/p/ABC123"]
  /\ tags_to_paths ["category:shoes"] = ["/shoes"]
  /\ tags_to_paths ["product"; "product:ABC123"; "layout"; "category:shoes"]
     = ["/p/ABC123"; "/shoes"].
Proof. repeat split; reflexivity. Qed.

(** C4.  When [REVALIDATE_SECRET] is set (to a non-empty string, which
    is what [if (process.env.REVALIDATE_SECRET)] tests) and the request
    has neither a [secret] query parameter nor an [x-revalidate-secret]
    header, the handler answers 401 with an error body, whatever the
    method, the tags and the paths of the request. *)
Theorem missing_secret_is_rejected (w : World) (req : Request) (secret : string) :
  REVALIDATE_SECRET w = Some secret ->
  secret <> "" ->
  query_secret req = Absent ->
  header_secret req = Absent ->
  handler w req = mkResponse 401 (Error "Invalid secret token").
Proof.
  intros Henv Hset Hq Hh.
  unfold handler, secret_rejected.
  rewrite Henv, Hq, Hh.
  apply String.eqb_neq in Hset. rewrite Hset. reflexivity.
Qed.

(** C10.  A request that passes the secret check and carries a path or
    a tag parameter (a truthy one, as lines 41 and 69 test) is answered
    with status 200 and [revalidated: true], whatever the calls of
    [res.revalidate] did. *)
Theorem revalidated_flag_ignores_failures (w : World) (req : Request) :
  secret_rejected w req = false ->
  truthy (query_path req) || truthy (query_tag req) = true ->
  exists message,
    handler w req = mkResponse 200 (Revalidated true (now w) message).
Proof.
  intros Hsec Hparam.
  unfold handler. rewrite Hsec.
  destruct (truthy (query_path req)); [eexists; reflexivity|].
  simpl in Hparam. rewrite Hparam. eexists; reflexivity.
Qed.

Lemma revalidate_loop_all_fail (w : World) :
  (forall n p, revalidate w n p = false) ->
  forall paths n acc, revalidate_loop w n paths acc = acc.
Proof.
  intros Hfail paths.
  induction paths as [|p paths IH]; intros n acc; simpl; [reflexivity|].
  rewrite Hfail. apply IH.
Qed.

(** Nothing was revalidated, and the flag is [true] all the same. *)
Lemma all_failed_still_true (w : World) (req : Request) :
  (forall n p, revalidate w n p = false) ->
  secret_rejected w req = false ->
  truthy (query_path req) = true ->
  handler w req
  = mkResponse 200 (Revalidated true (now w) "Revalidated 0 paths: ").
Proof.
  intros Hfail Hsec Hpath.
  unfold handler. rewrite Hsec, Hpath.
  rewrite revalidate_loop_all_fail by assumption. reflexivity.
Qed.

(** The two truthiness tests at their edge: an empty
    [REVALIDATE_SECRET] switches the check off, and an empty [path]
    with no [tag] counts as no parameter. *)
Lemma empty_secret_disables_check (w : World) (req : Request) :
  REVALIDATE_SECRET w = Some "" -> secret_rejected w req = false.
Proof. intros H. unfold secret_rejected. now rewrite H. Qed.

Lemma empty_path_is_missing (w : World) (req : Request) :
  secret_rejected w req = false ->
  query_path req = One "" ->
  query_tag req = Absent ->
  handler w req = mkResponse 400 (Error "Missing tag or path parameter").
Proof.
  intros Hsec Hp Ht. unfold handler. now rewrite Hsec, Hp, Ht.
Qed.

End RevalidateFacts.

Lemma missing_secret_is_rejected_witness :
  Revalidate.handler Samples.guarded_world Samples.anonymous_request
  = mkResponse 401 (Revalidate.Error "Invalid secret token").
Proof.
  apply (@missing_secret_is_rejected Samples.guarded_world
           Samples.anonymous_request "s3cret").
  - reflexivity.
  - discriminate.
  - reflexivity.
  - reflexivity.
Defined.

Lemma revalidated_flag_ignores_failures_witness :
  exists message,
    Revalidate.handler Samples.guarded_world Samples.tagged_request
    = mkResponse 200 (Revalidate.Revalidated true 0%Z message).
Proof.
  apply (@revalidated_flag_ignores_failures Samples.guarded_world
           Samples.tagged_request).
  - reflexivity.
  - reflexivity.
Defined.

(* ================================================================== *)
(** ** [/api/webhook/magento]: translation and response                *)
(* ================================================================== *)

Section WebhookFacts.

Import Webhook.

(** The handler past the method test, the destructuring and the
    presence check. *)
Lemma handler_post (w : World) (b : Payload) :
  JS.truthy (entity b) = true ->
  JS.truthy (action b) = true ->
  handler w (mkRequest "POST" (Some b))
  = match translate b with
    | Throws => mkResponse 500 (Error "Internal server error")
    | Returns paths =>
        if (List.length paths =? 0)%nat then
          mkResponse 400 (Error "Unknown entity type or missing path data")
        else
          match summary_log b with
          | Throws => mkResponse 500 (Error "Internal server error")
          | Returns _ =>
              mkResponse 200
                (Success true
                   ("Revalidated "
                      ++ JS.of_nat (List.length (fetch_loop w 0 paths []))
                      ++ " paths"))
          end
    end.
Proof.
  intros He Ha. unfold handler. cbn [method body].
  change ("POST" =? "POST") with true. cbn [negb].
  rewrite He, Ha. reflexivity.
Qed.

(** C5.  A POST whose body is
    [{entity:"product", action:"update", data:{sku:X}}], with no
    [url_key], yields no path and is answered 400 with the error
    [Unknown entity type or missing path data], for every [X] and
    whatever [fetch] would do. *)
Theorem product_without_url_key (w : World) (X : string) :
  let b := mkPayload (JS.Str "product") (JS.Str "update")
             (mkData JS.Undefined (JS.Str X) JS.Undefined JS.Undefined
                     JS.Undefined) in
  translate b = Returns []
  /\ handler w (mkRequest "POST" (Some b))
     = mkResponse 400 (Error "Unknown entity type or missing path data").
Proof.
  intros b.
  assert (Ht : translate b = Returns []).
  { unfold b, translate, product_paths, category_paths, page_paths, bind, template.
    simpl. destruct (X =? ""); reflexivity. }
  split; [exact Ht|].
  rewrite handler_post by reflexivity. now rewrite Ht.
Qed.

(** X27.  A product whose [url_key] is missing or falsy (an empty
    string, say) is never given a path, whatever else [data] carries
    and whatever the (truthy) action.  The answer is 400, but for one
    case: an [sku] whose [String()] throws makes the warning of line 56
    throw, and the answer is 500. *)
Lemma falsy_url_key_any_data (w : World) (d : Data) (a : JS.value) :
  JS.truthy (url_key d) = false ->
  JS.truthy a = true ->
  handler w (mkRequest "POST" (Some (mkPayload (JS.Str "product") a d)))
  = match sku d with
    | JS.Unprintable => mkResponse 500 (Error "Internal server error")
    | _ => mkResponse 400 (Error "Unknown entity type or missing path data")
    end.
Proof.
  intros Hkey Ha. rewrite handler_post by (try reflexivity; exact Ha).
  unfold translate, product_paths, category_paths, page_paths, bind, template.
  cbn [entity data JS.is_str]. change ("product" =? "product") with true.
  change ("product" =? "category") with false.
  change ("product" =? "page") with false.
  change ("product" =? "cms_page") with false.
  rewrite Hkey. cbn [negb andb orb].
  destruct (sku d) as [|s|t shown|]; cbn; try reflexivity.
  - destruct (s =? ""); reflexivity.
  - destruct t; reflexivity.
Qed.

(** C6.  For the body
    [{entity:"page", action:"update", data:{identifier:"about-us"}}]
    the translation is exactly [/about-us], and when the revalidation
    call for that path comes back ok the answer is
    [{success:true, message:"Revalidated 1 paths"}]. *)
Theorem page_update_revalidates (w : World) :
  let b := mkPayload (JS.Str "page") (JS.Str "update")
             (mkData JS.Undefined JS.Undefined JS.Undefined JS.Undefined
                     (JS.Str "about-us")) in
  fetch w 0 "/about-us" = Ok ->
  translate b = Returns ["/about-us"]
  /\ handler w (mkRequest "POST" (Some b))
     = mkResponse 200 (Success true "Revalidated 1 paths").
Proof.
  intros b Hok. split; [reflexivity|].
  rewrite handler_post by reflexivity. simpl. rewrite Hok. reflexivity.
Qed.

(** When that call fails the count in the message is 0; [success]
    stays [true]. *)
Lemma page_update_failed (w : World) :
  fetch w 0 "/about-us" <> Ok ->
  handler w (mkRequest "POST"
               (Some (mkPayload (JS.Str "page") (JS.Str "update")
                        (mkData JS.Undefined JS.Undefined JS.Undefined
                                JS.Undefined (JS.Str "about-us")))))
  = mkResponse 200 (Success true "Revalidated 0 paths").
Proof.
  intros Hfail. rewrite handler_post by reflexivity. simpl.
  destruct (fetch w 0 "/about-us"); [congruence | reflexivity | reflexivity].
Qed.

End WebhookFacts.

Lemma page_update_revalidates_witness :
  Webhook.handler Samples.webhook_world
    (Webhook.mkRequest "POST"
       (Some (Webhook.mkPayload (JS.Str "page") (JS.Str "update")
                (Webhook.mkData JS.Undefined JS.Undefined JS.Undefined
                                JS.Undefined (JS.Str "about-us")))))
  = mkResponse 200 (Webhook.Success true "Revalidated 1 paths").
Proof.
  apply (@page_update_revalidates Samples.webhook_world).
  reflexivity.
Defined.

(* ================================================================== *)
(** ** Paths begin with a slash                                        *)
(* ================================================================== *)

Lemma slashed_cons (s : string) : slashed ("/" ++ s).
Proof. apply (prefix_app "/" s). Qed.

Lemma slashed_push (paths : list string) (p : string) :
  Forall slashed paths -> slashed p -> Forall slashed (JS.push paths p).
Proof.
  intros Hs Hp. unfold JS.push. apply Forall_app. split; [assumption|].
  constructor; [assumption | constructor].
Qed.

Lemma tag_paths_slashed (t : string) : Forall slashed (Revalidate.tag_paths t).
Proof.
  unfold Revalidate.tag_paths.
  destruct (JS.startsWith "product:" t).
  - constructor; [apply (slashed_cons ("p/" ++ _)) | constructor].
  - destruct (JS.startsWith "category:" t).
    + constructor; [apply slashed_cons | constructor].
    + destruct (t =? "product"); [constructor|].
      destruct (t =? "category"); constructor.
Qed.

Lemma product_paths_slashed (b : Webhook.Payload) (paths paths' : list string) :
  Forall slashed paths ->
  Webhook.product_paths b paths = Webhook.Returns paths' ->
  Forall slashed paths'.
Proof.
  intros H. unfold Webhook.product_paths, Webhook.bind, Webhook.template.
  destruct (JS.is_str _ _); [|intros [= <-]; assumption].
  destruct (JS.truthy (Webhook.url_key _)); cbn [negb andb].
  - destruct (JS.show (Webhook.url_key _)); [|discriminate].
    intros [= <-]. apply slashed_push; [assumption|].
    apply (slashed_cons ("p/" ++ _)).
  - destruct (JS.truthy (Webhook.sku _));
      [destruct (JS.show (Webhook.sku _)); [|discriminate]|];
      intros [= <-]; assumption.
Qed.

Lemma category_paths_slashed (b : Webhook.Payload) (paths paths' : list string) :
  Forall slashed paths ->
  Webhook.category_paths b paths = Webhook.Returns paths' ->
  Forall slashed paths'.
Proof.
  intros H. unfold Webhook.category_paths, Webhook.bind, Webhook.template.
  destruct (JS.is_str _ _); [|intros [= <-]; assumption].
  destruct (JS.truthy (Webhook.url_path _)); cbn [negb andb].
  - destruct (Webhook.url_path (Webhook.data b)) as [|url| |]; try discriminate.
    intros [= <-]. apply slashed_push; [assumption|].
    destruct (JS.startsWith "/" url) eqn:E; [exact E | apply slashed_cons].
  - destruct (JS.truthy (Webhook.uid _));
      [destruct (JS.show (Webhook.uid _)); [|discriminate]|];
      intros [= <-]; assumption.
Qed.

Lemma page_paths_slashed (b : Webhook.Payload) (paths paths' : list string) :
  Forall slashed paths ->
  Webhook.page_paths b paths = Webhook.Returns paths' ->
  Forall slashed paths'.
Proof.
  intros H. unfold Webhook.page_paths, Webhook.bind, Webhook.template.
  destruct (_ || _); [|intros [= <-]; assumption].
  destruct (JS.truthy _); [|intros [= <-]; assumption].
  destruct (JS.show _); [|discriminate].
  intros [= <-]. apply slashed_push; [assumption|]. apply slashed_cons.
Qed.

Lemma translate_slashed (b : Webhook.Payload) (paths : list string) :
  Webhook.translate b = Webhook.Returns paths -> Forall slashed paths.
Proof.
  unfold Webhook.translate, Webhook.bind.
  destruct (Webhook.product_paths b []) as [ps1|] eqn:E1; [|discriminate].
  destruct (Webhook.category_paths b ps1) as [ps2|] eqn:E2; [|discriminate].
  destruct (Webhook.page_paths b ps2) as [ps3|] eqn:E3; [|discriminate].
  intros [= <-].
  apply (page_paths_slashed b ps2 ps3); [|exact E3].
  apply (category_paths_slashed b ps1 ps2); [|exact E2].
  apply (product_paths_slashed b [] ps1); [constructor | exact E1].
Qed.

(** C9.  Every path the translator produces, from the tags of a request
    to [/api/revalidate] or from the body of a request to
    [/api/webhook/magento], begins with [/]. *)
Theorem paths_begin_with_slash (p : string) :
  (exists tags, In p (Revalidate.tags_to_paths tags))
  \/ (exists b paths, Webhook.translate b = Webhook.Returns paths /\ In p paths) ->
  JS.startsWith "/" p = true.
Proof.
  intros [[tags Hin] | [b [paths [Htr Hin]]]].
  - rewrite tags_to_paths_flat_map in Hin.
    apply in_flat_map in Hin. destruct Hin as [t [_ Hin]].
    pose proof (tag_paths_slashed t) as Hall.
    rewrite Forall_forall in Hall. apply Hall, Hin.
  - pose proof (translate_slashed b paths Htr) as Hall.
    rewrite Forall_forall in Hall. apply Hall, Hin.
Qed.

Lemma paths_begin_with_slash_witness : JS.startsWith "/" "/men/shoes" = true.
Proof.
  apply (@paths_begin_with_slash "/men/shoes").
  right. exists Samples.category_payload, ["/men/shoes"].
  split; [reflexivity | left; reflexivity].
Defined.

(** X26.  A category whose [url_path] is truthy and not a string (a
    number, an array, an object) makes [data.url_path.startsWith]
    throw: no path is produced and the handler answers 500 ``Internal
    server error''. *)
Lemma non_string_url_path_throws (w : Webhook.World) (d : Webhook.Data)
      (a : JS.value) (shown : string) :
  Webhook.url_path d = JS.Other true shown ->
  JS.truthy a = true ->
  Webhook.handler w (Webhook.mkRequest "POST"
                       (Some (Webhook.mkPayload (JS.Str "category") a d)))
  = mkResponse 500 (Webhook.Error "Internal server error").
Proof.
  intros Hurl Ha.
  rewrite handler_post by (try reflexivity; exact Ha).
  unfold Webhook.translate, Webhook.category_paths, Webhook.product_paths,
    Webhook.bind.
  simpl. rewrite Hurl. reflexivity.
Qed.

(* ================================================================== *)
(** ** [/api/revalidate-all]: lists, sets and slices                   *)
(* ================================================================== *)

Section ListFacts.

Import RevalidateAll.

Lemma set_add_In (set : list string) (x y : string) :
  In y (set_add set x) <-> In y set \/ y = x.
Proof.
  unfold set_add, JS.push.
  destruct (existsb (String.eqb x) set) eqn:E.
  - apply existsb_exists in E. destruct E as [z [Hz Hxz]].
    apply String.eqb_eq in Hxz. subst z.
    split; [now left | intros [H | ->]; assumption].
  - rewrite in_app_iff. simpl. split.
    + intros [H | [H | []]]; [now left | now right].
    + intros [H | ->]; [now left | right; now left].
Qed.

Lemma set_add_NoDup (set : list string) (x : string) :
  NoDup set -> NoDup (set_add set x).
Proof.
  intros Hnd. unfold set_add, JS.push.
  destruct (existsb (String.eqb x) set) eqn:E; [assumption|].
  assert (Hnin : ~ In x set).
  { intros Hin.
    assert (existsb (String.eqb x) set = true) as Hex; [|congruence].
    apply existsb_exists. exists x. split; [assumption | apply String.eqb_refl]. }
  apply NoDup_app; [assumption | constructor; [intros [] | constructor] |].
  intros y Hy [<- | []]. contradiction.
Qed.

Lemma fold_set_add (l set : list string) :
  NoDup set ->
  NoDup (fold_left set_add l set)
  /\ forall y, In y (fold_left set_add l set) <-> In y set \/ In y l.
Proof.
  revert set. induction l as [|x l IH]; intros set Hnd; simpl.
  - split; [assumption | intros y; tauto].
  - destruct (IH (set_add set x) (set_add_NoDup set x Hnd)) as [Hn Hi].
    split; [assumption|].
    intros y. rewrite Hi, set_add_In. intuition (subst; auto).
Qed.

(** [new Set(allPaths)] has each string of [allPaths] once. *)
Lemma unique_NoDup (l : list string) : NoDup (unique l).
Proof. apply (fold_set_add l []). constructor. Qed.

Lemma unique_In (l : list string) (y : string) : In y (unique l) <-> In y l.
Proof.
  destruct (fold_set_add l [] (NoDup_nil _)) as [_ H].
  unfold unique. rewrite H. simpl. tauto.
Qed.

Lemma firstn_plus {A : Type} (i n : nat) (l : list A) :
  firstn (i + n) l = (firstn i l ++ firstn n (skipn i l))%list.
Proof.
  revert l. induction i as [|i IH]; intros l; simpl; [reflexivity|].
  destruct l as [|x l]; simpl.
  - now rewrite firstn_nil.
  - now rewrite IH.
Qed.

Lemma slice_batch {A : Type} (i n : nat) (l : list A) :
  slice i (i + n) l = firstn n (skipn i l).
Proof. unfold slice. f_equal. lia. Qed.

Lemma slice_from_start {A : Type} (n : nat) (l : list A) :
  slice 0 n l = firstn n l.
Proof. unfold slice. now rewrite Nat.sub_0_r. Qed.

Lemma In_slice {A : Type} (i j : nat) (l : list A) (x : A) :
  In x (slice i j l) -> In x l.
Proof.
  unfold slice. intros H.
  rewrite <- (firstn_skipn i l). apply in_or_app. right.
  rewrite <- (firstn_skipn (j - i) (skipn i l)). apply in_or_app. now left.
Qed.

End ListFacts.

(* ================================================================== *)
(** ** [/api/revalidate-all]: one batch, and the loop                  *)
(* ================================================================== *)

Section BatchFacts.

Import RevalidateAll.

Variable w : World.

Lemma issue_all (k : nat) (batch : list string) (st : State) :
  fold_left (issue k) batch st
  = mkState (revalidatedCount st) (errors st)
            (trace st ++ map (Issued k) batch)%list.
Proof.
  revert st. induction batch as [|p batch IH]; intros st; simpl.
  - rewrite app_nil_r. now destruct st.
  - rewrite IH. unfold issue, JS.push. simpl.
    now rewrite <- app_assoc.
Qed.

Lemma settle_all (k : nat) (l : list string) (st : State) :
  fold_left (settle w k) l st
  = mkState (revalidatedCount st + List.length (filter (succeeds w) l))
            (errors st ++ flat_map (failure w) l)%list
            (trace st ++ map (Settled k) l)%list.
Proof.
  revert st. induction l as [|p l IH]; intros st; simpl.
  - rewrite Nat.add_0_r, !app_nil_r. now destruct st.
  - rewrite IH. unfold settle, succeeds, failure, JS.push.
    destruct (fetch w p); simpl; rewrite <- ?app_assoc; simpl;
      f_equal; try lia; now rewrite app_nil_r.
Qed.

Lemma run_batch_state (k : nat) (batch : list string) (st : State) :
  run_batch w k batch st
  = mkState
      (revalidatedCount st
       + List.length (filter (succeeds w) (settle_order w k batch)))
      (errors st ++ flat_map (failure w) (settle_order w k batch))%list
      (trace st ++ map (Issued k) batch
         ++ map (Settled k) (settle_order w k batch))%list.
Proof.
  unfold run_batch. rewrite settle_all, issue_all. simpl.
  now rewrite <- app_assoc.
Qed.

(** The loop is left, with enough fuel, and what every turn keeps holds
    when it is. *)
Lemma batch_loop_invariant (l : list string) (Inv : nat -> nat -> State -> Prop) :
  (forall i k st,
      i < List.length l ->
      Inv i k st ->
      Inv (i + batchSize) (S k) (run_batch w k (slice i (i + batchSize) l) st)) ->
  forall fuel i k st,
    List.length l - i < fuel ->
    Inv i k st ->
    exists i' k' st',
      batch_loop w l fuel i k st = Some (k', st')
      /\ Inv i' k' st' /\ List.length l <= i'.
Proof.
  intros Hstep fuel.
  induction fuel as [|fuel IH]; intros i k st Hfuel Hinv; [lia|].
  simpl. destruct (i <? List.length l)%nat eqn:E.
  - apply Nat.ltb_lt in E. apply IH.
    + unfold batchSize. lia.
    + apply Hstep; assumption.
  - apply Nat.ltb_ge in E. exists i, k, st. auto.
Qed.

End BatchFacts.

(* ================================================================== *)
(** ** [/api/revalidate-all]: what the loop keeps                      *)
(* ================================================================== *)

Section LoopFacts.

Import RevalidateAll.

Variable w : World.

Lemma dispatched_app (a b : list Event) :
  dispatched (a ++ b) = (dispatched a ++ dispatched b)%list.
Proof.
  induction a as [|[k p | k p] a IH]; simpl; [reflexivity | now rewrite IH | exact IH].
Qed.

Lemma dispatched_issued (k : nat) (l : list string) :
  dispatched (map (Issued k) l) = l.
Proof. induction l as [|p l IH]; simpl; [reflexivity | now rewrite IH]. Qed.

Lemma dispatched_settled (k : nat) (l : list string) :
  dispatched (map (Settled k) l) = [].
Proof. induction l as [|p l IH]; simpl; [reflexivity | exact IH]. Qed.

Lemma permuted_filter_length {A : Type} (f : A -> bool) (l l' : list A) :
  Permutation l l' -> List.length (filter f l) = List.length (filter f l').
Proof.
  induction 1 as [| x l l' _ IH | x y l | l l' l'' _ IH1 _ IH2]; simpl.
  - reflexivity.
  - destruct (f x); simpl; congruence.
  - destruct (f x), (f y); reflexivity.
  - congruence.
Qed.

Lemma permuted_flat_map {A B : Type} (f : A -> list B) (l l' : list A) :
  Permutation l l' -> Permutation (flat_map f l) (flat_map f l').
Proof.
  induction 1 as [| x l l' _ IH | x y l | l l' l'' _ IH1 _ IH2]; simpl.
  - constructor.
  - now apply Permutation_app_head.
  - rewrite !app_assoc. apply Permutation_app_tail, Permutation_app_comm.
  - eapply Permutation_trans; eassumption.
Qed.

Lemma loop_invariant_start (l errors0 : list string) :
  loop_invariant w l errors0 0 0 (mkState 0 errors0 []).
Proof.
  unfold loop_invariant, batchSize. simpl.
  repeat split; try lia.
  exists []. split; [now rewrite app_nil_r | constructor].
Qed.

Lemma loop_invariant_step (l errors0 : list string) (i k : nat) (st : State) :
  i < List.length l ->
  loop_invariant w l errors0 i k st ->
  loop_invariant w l errors0 (i + batchSize) (S k)
                 (run_batch w k (slice i (i + batchSize) l) st).
Proof.
  intros Hi (Hik & Hb & Hd & Hf).
  rewrite run_batch_state. unfold loop_invariant. simpl.
  rewrite slice_batch, firstn_plus.
  set (batch := firstn batchSize (skipn i l)) in *.
  split; [unfold batchSize in *; lia|].
  split; [unfold batchSize in *; lia|].
  split.
  - rewrite !dispatched_app, dispatched_issued, dispatched_settled, Hd.
    now rewrite app_nil_r.
  - intros Hfair. destruct (Hf Hfair) as (Hc & es & He & Hp).
    pose proof (Hfair k batch) as Hperm.
    split.
    + rewrite filter_app, length_app, Hc.
      now rewrite (permuted_filter_length (succeeds w) _ _ Hperm).
    + exists (es ++ flat_map (failure w) (settle_order w k batch))%list. split.
      * now rewrite He, app_assoc.
      * rewrite flat_map_app. apply Permutation_app; [assumption|].
        apply permuted_flat_map. now apply Permutation_sym.
Qed.

Lemma chunk_slice (i k : nat) (l : list string) :
  i = k * batchSize -> slice i (i + batchSize) l = chunk k l.
Proof. intros ->. reflexivity. Qed.

Lemma trace_invariant_start (l errors0 : list string) :
  trace_invariant w l 0 0 (mkState 0 errors0 []).
Proof.
  unfold trace_invariant. simpl. split; [reflexivity|]. split.
  - intros j p. split; [intros [] | intros [H _]; lia].
  - intros _. split.
    + intros j q H. lia.
    + intros j j' p q pre post _ H. now destruct pre.
Qed.

Lemma trace_invariant_step (l : list string) (i k : nat) (st : State) :
  i < List.length l ->
  trace_invariant w l i k st ->
  trace_invariant w l (i + batchSize) (S k)
                  (run_batch w k (slice i (i + batchSize) l) st).
Proof.
  intros Hi (Hik & Hiss & Hf).
  rewrite run_batch_state. unfold trace_invariant. simpl.
  rewrite (chunk_slice i k l Hik).
  set (batch := chunk k l) in *.
  set (order := settle_order w k batch).
  split; [unfold batchSize in *; lia|].
  split.
  - intros j p. rewrite !in_app_iff, !in_map_iff, Hiss. split.
    + intros [[Hj Hp] | [[x [[= <- <-] Hx]] | [x [[=] _]]]].
      * split; [lia | assumption].
      * split; [lia | assumption].
    + intros [Hj Hp]. destruct (Nat.eq_dec j k) as [-> | Hne].
      * right. left. exists p. split; [reflexivity | assumption].
      * left. split; [lia | assumption].
  - intros Hfair. destruct (Hf Hfair) as [Hset Hord].
    pose proof (Hfair k batch) as Hperm. fold order in Hperm.
    assert (Hset' : forall j q, j < S k -> In q (chunk j l) ->
                In (Settled j q)
                   (trace st ++ map (Issued k) batch ++ map (Settled k) order)).
    { intros j q Hj Hq. rewrite !in_app_iff.
      destruct (Nat.eq_dec j k) as [-> | Hne].
      - right. right. apply in_map. eapply Permutation_in; eassumption.
      - left. apply Hset; [lia | assumption]. }
    split; [exact Hset'|].
    intros j j' p q pre post Hlt Heq Hq.
    apply app_eq_app in Heq. destruct Heq as [rest [[Htr Hnew] | [Hpre Hnew]]].
    + destruct rest as [|e rest].
      * rewrite app_nil_r in Htr. subst pre. simpl in Hnew.
        assert (Hin : In (Issued j p) (map (Issued k) batch ++ map (Settled k) order)).
        { rewrite <- Hnew. now left. }
        rewrite in_app_iff, !in_map_iff in Hin.
        destruct Hin as [[x [[= <- <-] _]] | [x [[=] _]]].
        apply Hset; assumption.
      * injection Hnew as <- _.
        eapply Hord; eassumption.
    + subst pre.
      assert (Hin : In (Issued j p) (map (Issued k) batch ++ map (Settled k) order)).
      { rewrite Hnew. apply in_elt. }
      rewrite in_app_iff, !in_map_iff in Hin.
      destruct Hin as [[x [[= <- <-] _]] | [x [[=] _]]].
      rewrite in_app_iff. left. apply Hset; assumption.
Qed.

End LoopFacts.

(* ================================================================== *)
(** ** [/api/revalidate-all]: the batch orchestrator                   *)
(* ================================================================== *)

Section OrchestratorFacts.

Import RevalidateAll.

Variable w : World.

(** The orchestrator always comes to an end, and both invariants hold of
    the state it ends in, at an index past the last path. *)
Lemma orchestrate_runs (allPaths errors0 : list string) :
  exists r i,
    orchestrate w allPaths errors0 = Some r
    /\ uniquePaths r = unique allPaths
    /\ loop_invariant w (unique allPaths) errors0 i (waves r) (final r)
    /\ trace_invariant w (unique allPaths) i (waves r) (final r)
    /\ List.length (unique allPaths) <= i.
Proof.
  unfold orchestrate.
  destruct (batch_loop_invariant w (unique allPaths)
              (fun i k st => loop_invariant w (unique allPaths) errors0 i k st
                             /\ trace_invariant w (unique allPaths) i k st))
    with (fuel := S (List.length (unique allPaths))) (i := 0) (k := 0)
         (st := mkState 0 errors0 [])
    as (i & k & st & Hrun & [Hloop Htrace] & Hend).
  - intros i k st Hi [Hl Ht]. split.
    + now apply loop_invariant_step.
    + now apply trace_invariant_step.
  - lia.
  - split; [apply loop_invariant_start | apply trace_invariant_start].
  - rewrite Hrun. exists (mkRun (unique allPaths) k st), i. simpl. auto.
Qed.

Lemma waves_count (L i k : nat) :
  i = k * batchSize -> i < L + batchSize -> L <= i -> k = (L + 9) / 10.
Proof.
  unfold batchSize. intros -> Hlt Hle.
  apply (Nat.div_unique (L + 9) 10 k (L + 9 - 10 * k)); lia.
Qed.

(** [(L + 9) / 10] is the least number of tens that covers [L]. *)
Lemma waves_cover (L : nat) :
  L <= 10 * ((L + 9) / 10) < L + 10.
Proof.
  pose proof (Nat.div_mod_eq (L + 9) 10) as H.
  pose proof (Nat.mod_upper_bound (L + 9) 10) as Hm. lia.
Qed.

(** C1.  Whatever list of paths the batch orchestrator is given, and
    however often a path occurs in it, [fetch] is called at most once for
    each path: once for a path of the list, never for another. *)
Theorem dispatched_at_most_once (allPaths errors0 : list string) :
  exists r,
    orchestrate w allPaths errors0 = Some r
    /\ NoDup (dispatched (trace (final r)))
    /\ forall path,
         count_occ string_dec (dispatched (trace (final r))) path <= 1
         /\ (count_occ string_dec (dispatched (trace (final r))) path = 1
             <-> In path allPaths).
Proof.
  destruct (orchestrate_runs allPaths errors0)
    as (r & i & Hrun & _ & (_ & _ & Hd & _) & _ & Hend).
  exists r. split; [exact Hrun|].
  rewrite Hd, (firstn_all2 _ Hend).
  pose proof (unique_NoDup allPaths) as Hnd.
  split; [exact Hnd|].
  intros path. split.
  - now apply NoDup_count_occ.
  - rewrite <- unique_In. split.
    + intros H1. apply (count_occ_In string_dec). lia.
    + apply (proj1 (NoDup_count_occ' string_dec _) Hnd).
Qed.

(** C2.  The deduplicated list, of length [L], is run as [ceil (L/10)]
    batches, which are its successive chunks of ten; and at the moment
    a call of a batch is issued, every call of every earlier batch has
    settled. *)
Theorem chunk_waves_are_sequential (allPaths errors0 : list string) :
  fair w ->
  exists r,
    orchestrate w allPaths errors0 = Some r
    /\ uniquePaths r = unique allPaths
    /\ waves r = (List.length (uniquePaths r) + 9) / 10
    /\ dispatched (trace (final r)) = uniquePaths r
    /\ (forall j p, In (Issued j p) (trace (final r))
                    <-> j < waves r /\ In p (chunk j (uniquePaths r)))
    /\ (forall j j' p q pre post,
           j' < j ->
           trace (final r) = (pre ++ Issued j p :: post)%list ->
           In q (chunk j' (uniquePaths r)) ->
           In (Settled j' q) pre).
Proof.
  intros Hfair.
  destruct (orchestrate_runs allPaths errors0)
    as (r & i & Hrun & Hu & (Hik & Hlt & Hd & _) & (_ & Hiss & Hf) & Hend).
  destruct (Hf Hfair) as [_ Hord].
  exists r. rewrite Hu.
  split; [exact Hrun|].
  split; [reflexivity|].
  split; [now apply (waves_count _ i)|].
  split; [rewrite Hd; now apply firstn_all2|].
  split; [exact Hiss | exact Hord].
Qed.

End OrchestratorFacts.

Lemma chunk_waves_are_sequential_witness :
  exists r,
    RevalidateAll.orchestrate Samples.shop_world
      (Samples.twelve_products ++ ["/men"; "/p/01"])%list [] = Some r
    /\ RevalidateAll.waves r = 2.
Proof.
  destruct (chunk_waves_are_sequential Samples.shop_world
              (Samples.twelve_products ++ ["/men"; "/p/01"])%list [])
    as (r & Hrun & Hu & Hw & _).
  - intros k batch. apply Permutation_rev.
  - exists r. split; [exact Hrun|].
    rewrite Hw, Hu. reflexivity.
Defined.

(* ================================================================== *)
(** ** [/api/revalidate-all]: the response                             *)
(* ================================================================== *)

Section SummaryFacts.

Import RevalidateAll.

Variable w : World.

(** A path that fails records one message, a path that succeeds none. *)
Lemma failure_count (l : list string) :
  List.length (flat_map (failure w) l)
  = List.length (filter (fun p => negb (succeeds w p)) l).
Proof.
  induction l as [|p l IH]; simpl; [reflexivity|].
  rewrite length_app, IH. unfold failure, succeeds.
  destruct (fetch w p); reflexivity.
Qed.

Lemma orchestrate_totals (allPaths errors0 : list string) :
  fair w ->
  exists r es,
    orchestrate w allPaths errors0 = Some r
    /\ uniquePaths r = unique allPaths
    /\ revalidatedCount (final r)
       = List.length (filter (succeeds w) (unique allPaths))
    /\ errors (final r) = (errors0 ++ es)%list
    /\ Permutation es (flat_map (failure w) (unique allPaths)).
Proof.
  intros Hfair.
  destruct (orchestrate_runs w allPaths errors0)
    as (r & i & Hrun & Hu & (_ & _ & _ & Hf) & _ & Hend).
  destruct (Hf Hfair) as (Hc & es & He & Hp).
  rewrite (firstn_all2 _ Hend) in Hc, Hp.
  exists r, es. auto.
Qed.

Lemma handler_accepts (req : Request) (ls : list string) :
  method req = "GET" \/ method req = "POST" ->
  iterated (locales req) = Some ls ->
  handler w req = respond w ls.
Proof.
  intros Hm Hls. unfold handler.
  replace (negb (method req =? "GET") && negb (method req =? "POST")) with false
    by (destruct Hm as [-> | ->]; reflexivity).
  destruct (locales req); simpl in Hls; congruence.
Qed.


(** When only the path [path] fails, among paths that were all listed
    without error, its message is the whole of [errors], and [total] is
    one less than the number of distinct paths. *)
Lemma lone_failure (l : list string) (path msg : string) :
  NoDup l ->
  In path l ->
  failure w path = [msg] ->
  (forall q, In q l -> q <> path -> succeeds w q = true) ->
  flat_map (failure w) l = [msg]
  /\ S (List.length (filter (succeeds w) l)) = List.length l.
Proof.
  intros Hnd Hin Hmsg Hrest.
  assert (Hfail : succeeds w path = false).
  { unfold failure, succeeds in *. destruct (fetch w path); [discriminate | | ]; reflexivity. }
  assert (Hok : forall q, succeeds w q = true -> failure w q = []).
  { intros q. unfold failure, succeeds. destruct (fetch w q); [reflexivity | | ]; discriminate. }
  assert (Hall : forall l', ~ In path l' ->
            (forall q, In q l' -> q <> path -> succeeds w q = true) ->
            flat_map (failure w) l' = []
            /\ List.length (filter (succeeds w) l') = List.length l').
  { induction l' as [|a l' IH]; intros Hnin Hr; simpl; [auto|].
    assert (Ha : succeeds w a = true).
    { apply Hr; [now left | intros ->; apply Hnin; now left]. }
    destruct IH as [IH1 IH2].
    - intros H. apply Hnin. now right.
    - intros q Hq. apply Hr. now right.
    - rewrite Ha, (Hok a Ha), IH1. simpl. now rewrite IH2. }
  induction l as [|a l IH]; [contradiction|].
  inversion Hnd as [|a' l' Hnin Hnd']; subst.
  destruct (string_dec a path) as [-> | Hne]; simpl.
  - destruct (Hall l Hnin) as [H1 H2].
    { intros q Hq. apply Hrest. now right. }
    rewrite Hmsg, Hfail, H1, H2. auto.
  - destruct Hin as [-> | Hin]; [contradiction|].
    assert (Ha : succeeds w a = true) by (apply Hrest; [now left | assumption]).
    destruct IH as [IH1 IH2]; try assumption.
    { intros q Hq. apply Hrest. now right. }
    rewrite Ha, (Hok a Ha), IH1. simpl. now rewrite IH2.
Qed.

(** X24.  When every locale is listed and exactly one distinct path
    fails to revalidate, the answer is 200 with [success: true], [errors]
    is that path's message alone, and [total] is one less than the
    number of distinct paths. *)
Lemma single_failure_is_reported
      (req : Request) (ls allPaths : list string) (path msg : string) :
  fair w ->
  method req = "GET" \/ method req = "POST" ->
  iterated (locales req) = Some ls ->
  gather w 0 ls [] [] = (allPaths, []) ->
  In path allPaths ->
  failure w path = [msg] ->
  (forall q, In q allPaths -> q <> path -> succeeds w q = true) ->
  exists message products categories total tr,
    handler w req
    = Some (mkResponse 200
              (Summary true message products categories total (Some [msg])), tr)
    /\ S total = List.length (unique allPaths).
Proof.
  intros Hfair Hm Hls Hg Hin Hmsg Hrest.
  rewrite (handler_accepts req ls Hm Hls). unfold respond. rewrite Hg.
  destruct (orchestrate_totals allPaths [] Hfair)
    as (r & es & Hrun & Hu & Hc & He & Hp).
  destruct (lone_failure (unique allPaths) path msg) as [Hone Hcount].
  - apply unique_NoDup.
  - now apply unique_In.
  - assumption.
  - intros q Hq. apply Hrest. now apply unique_In.
  - rewrite Hone in Hp. apply Permutation_sym, Permutation_length_1_inv in Hp.
    subst es. rewrite Hrun. unfold summary. rewrite Hu, Hc, He. simpl.
    do 5 eexists. split; [reflexivity | exact Hcount].
Qed.

End SummaryFacts.



(** The handler of [/api/revalidate-all] always answers. *)
Lemma handler_responds (w : RevalidateAll.World) (req : RevalidateAll.Request) :
  exists response tr, RevalidateAll.handler w req = Some (response, tr).
Proof.
  unfold RevalidateAll.handler.
  destruct (negb _ && negb _); [do 2 eexists; reflexivity|].
  assert (H : forall ls, exists response tr,
               RevalidateAll.respond w ls = Some (response, tr)).
  { intros ls. unfold RevalidateAll.respond.
    destruct (RevalidateAll.gather w 0 ls [] []) as [allPaths errors0].
    destruct (orchestrate_runs w allPaths errors0) as (r & i & Hrun & _).
    rewrite Hrun. do 2 eexists; reflexivity. }
  destruct (RevalidateAll.locales req); [apply H | apply H |].
  do 2 eexists; reflexivity.
Qed.

(* ================================================================== *)
(** ** The method of the request                                       *)
(* ================================================================== *)

(** A [DELETE] sent to [/api/revalidate] is served like any other
    request: the path is revalidated and the answer is 200, not 405. *)
Lemma delete_is_served :
  Revalidate.method Samples.delete_request = "DELETE"
  /\ Revalidate.handler Samples.open_world Samples.delete_request
     = mkResponse 200
         (Revalidate.Revalidated true 0%Z "Revalidated 1 paths: /p/shoe")
  /\ status (Revalidate.handler Samples.open_world Samples.delete_request) <> 405.
Proof. repeat split. discriminate. Qed.

Lemma revalidate_status (w : Revalidate.World) (req : Revalidate.Request) :
  status (Revalidate.handler w req) = 401
  \/ status (Revalidate.handler w req) = 200
  \/ status (Revalidate.handler w req) = 400.
Proof.
  unfold Revalidate.handler.
  destruct (Revalidate.secret_rejected w req); [now left|].
  destruct (Revalidate.truthy (Revalidate.query_path req)); [right; now left|].
  destruct (Revalidate.truthy (Revalidate.query_tag req)); [right; now left|].
  right; now right.
Qed.

(** C8, as the code has it.  [/api/revalidate-all] answers 405 to every
    method other than GET and POST, and [/api/webhook/magento] to every
    method other than POST.  [/api/revalidate] does not look at the
    method: its answer is the same under every method, and is never
    405. *)
Theorem method_guards :
  (forall w req,
      RevalidateAll.method req <> "GET" ->
      RevalidateAll.method req <> "POST" ->
      RevalidateAll.handler w req
      = Some (mkResponse 405 (RevalidateAll.Error "Method not allowed"), []))
  /\ (forall w req,
         Webhook.method req <> "POST" ->
         Webhook.handler w req
         = mkResponse 405 (Webhook.Error "Method not allowed"))
  /\ (forall w req m,
         Revalidate.handler w (with_method m req) = Revalidate.handler w req
         /\ status (Revalidate.handler w req) <> 405).
Proof.
  split; [|split].
  - intros w req Hget Hpost. unfold RevalidateAll.handler.
    apply String.eqb_neq in Hget, Hpost. now rewrite Hget, Hpost.
  - intros w req Hpost. unfold Webhook.handler.
    apply String.eqb_neq in Hpost. now rewrite Hpost.
  - intros w req m. split; [reflexivity|].
    destruct (revalidate_status w req) as [H | [H | H]]; rewrite H; discriminate.
Qed.

Lemma method_guards_witness :
  RevalidateAll.handler Samples.shop_world Samples.put_request
  = Some (mkResponse 405 (RevalidateAll.Error "Method not allowed"), [])
  /\ Webhook.handler Samples.webhook_world (Webhook.mkRequest "GET" None)
     = mkResponse 405 (Webhook.Error "Method not allowed").
Proof.
  destruct method_guards as (Hall & Hhook & _). split.
  - apply (Hall Samples.shop_world Samples.put_request); discriminate.
  - apply (Hhook Samples.webhook_world (Webhook.mkRequest "GET" None)).
    discriminate.
Defined.

(** X25.  The two method guards let the supported methods through: a
    GET or POST to [/api/revalidate-all] and a POST to
    [/api/webhook/magento] are never answered 405. *)
Lemma supported_methods_pass :
  (forall w req response tr,
      RevalidateAll.method req = "GET" \/ RevalidateAll.method req = "POST" ->
      RevalidateAll.handler w req = Some (response, tr) ->
      status response <> 405)
  /\ (forall w req,
         Webhook.method req = "POST" ->
         status (Webhook.handler w req) <> 405).
Proof.
  split.
  - intros w req response tr Hm. unfold RevalidateAll.handler.
    replace (negb (RevalidateAll.method req =? "GET")
             && negb (RevalidateAll.method req =? "POST")) with false
      by (destruct Hm as [-> | ->]; reflexivity).
    assert (H : forall ls, RevalidateAll.respond w ls = Some (response, tr) ->
                           status response <> 405).
    { intros ls. unfold RevalidateAll.respond.
      destruct (RevalidateAll.gather w 0 ls [] []) as [allPaths errors0].
      destruct (RevalidateAll.orchestrate w allPaths errors0); [|discriminate].
      intros [= <- _]. discriminate. }
    destruct (RevalidateAll.locales req); [apply H | apply H |].
    intros [= <- _]. discriminate.
  - intros w req Hm. unfold Webhook.handler. rewrite Hm. simpl.
    destruct (Webhook.body req) as [b|]; [|discriminate].
    destruct (negb _ || negb _); [discriminate|].
    destruct (Webhook.translate b) as [paths|]; [|discriminate].
    destruct (List.length paths =? 0)%nat; [discriminate|].
    destruct (Webhook.summary_log b); discriminate.
Qed.

(* ================================================================== *)
(** ** [/api/revalidate]: which parameter wins, and what is reported   *)
(* ================================================================== *)

Section RevalidateMore.

Import Revalidate.

(** X1.  When a request carries a (truthy) [path] parameter its [tag]
    parameter is not looked at: the answer is the same whatever the
    tags are, or with none. *)
Theorem path_shadows_tag (w : World) (req : Request) (t : param) :
  truthy (query_path req) = true ->
  handler w (with_tag t req) = handler w req.
Proof.
  intros Hpath. unfold handler, secret_rejected, with_tag. simpl.
  rewrite Hpath. reflexivity.
Qed.

(** X2.  With a non-empty [REVALIDATE_SECRET] a request passes the check
    in two cases only: its [secret] query parameter is that very string,
    or that parameter is missing or empty and the header is that string.
    So a wrong non-empty query secret is refused even beside the right
    header, and so is a secret given twice. *)
Theorem secret_check (w : World) (req : Request) (expected : string) :
  REVALIDATE_SECRET w = Some expected ->
  expected <> "" ->
  (secret_rejected w req = false
   <-> query_secret req = One expected
       \/ (truthy (query_secret req) = false
           /\ header_secret req = One expected)).
Proof.
  intros Henv Hset. unfold secret_rejected. rewrite Henv.
  apply String.eqb_neq in Hset. rewrite Hset. simpl.
  assert (Hone : forall s, differs (One s) expected = false <-> One s = One expected).
  { intros s. simpl. rewrite negb_false_iff, String.eqb_eq.
    split; [now intros -> | now intros [= ->]]. }
  assert (Hhdr : forall h, differs h expected = false <-> h = One expected).
  { intros [|s|l]; [split; discriminate | apply Hone | split; discriminate]. }
  unfold or_else.
  destruct (query_secret req) as [|s|l]; simpl.
  - rewrite Hhdr. split; [intros H; right; now split | intros [H | [_ H]]; [discriminate | assumption]].
  - destruct (s =? "") eqn:E; simpl.
    + apply String.eqb_eq in E. subst s. rewrite Hhdr. split.
      * intros H. right. now split.
      * intros [[= H] | [_ H]]; [|assumption].
        subst expected. discriminate.
    + rewrite negb_false_iff, String.eqb_eq. split.
      * intros ->. now left.
      * intros [[= ->] | [H _]]; [reflexivity | discriminate].
  - split; [discriminate | intros [H | [H _]]; discriminate].
Qed.

Lemma unprefixed_tag_paths (t : string) : unprefixed t = true -> tag_paths t = [].
Proof.
  unfold unprefixed, tag_paths. intros H.
  apply andb_true_iff in H. destruct H as [H1 H2].
  apply negb_true_iff in H1, H2. rewrite H1, H2.
  destruct (t =? "product"); [reflexivity|].
  destruct (t =? "category"); reflexivity.
Qed.

(** X3.  Tags that do not begin with [product:] or [category:] (so
    [product], [category], [page], [layout], [menu], [all], [page:x])
    revalidate nothing: a request with such tags only is answered 200,
    [revalidated: true], ``Revalidated 0 paths from tags: ...'', and
    [res.revalidate] has no say in it. *)
Theorem unprefixed_tags_do_nothing (w : World) (req : Request) :
  secret_rejected w req = false ->
  truthy (query_path req) = false ->
  truthy (query_tag req) = true ->
  forallb unprefixed (as_array (query_tag req)) = true ->
  handler w req
  = mkResponse 200
      (Revalidated true (now w)
         ("Revalidated 0 paths from tags: "
            ++ JS.join ", " (as_array (query_tag req)))).
Proof.
  intros Hsec Hpath Htag Hall.
  unfold handler. rewrite Hsec, Hpath, Htag.
  assert (Hnone : tags_to_paths (as_array (query_tag req)) = []).
  { rewrite tags_to_paths_flat_map.
    induction (as_array (query_tag req)) as [|t tags IH]; [reflexivity|].
    simpl in Hall. apply andb_true_iff in Hall. destruct Hall as [Ht Hall].
    simpl. now rewrite (unprefixed_tag_paths t Ht), (IH Hall). }
  rewrite Hnone. reflexivity.
Qed.

Lemma revalidate_loop_resolved (w : World) (paths : list string) :
  forall n acc, revalidate_loop w n paths acc = (acc ++ resolved w n paths)%list.
Proof.
  unfold resolved.
  induction paths as [|p paths IH]; intros n acc; simpl.
  - now rewrite app_nil_r.
  - destruct (revalidate w n p); simpl; rewrite IH.
    + unfold JS.push. now rewrite <- app_assoc.
    + reflexivity.
Qed.

Lemma resolved_length (w : World) (paths : list string) :
  forall n, List.length (resolved w n paths) <= List.length paths.
Proof.
  unfold resolved.
  induction paths as [|p paths IH]; intros n; simpl; [lia|].
  destruct (revalidate w n p); simpl; specialize (IH (S n)); lia.
Qed.

Lemma resolved_all (w : World) (paths : list string) :
  (forall n p, revalidate w n p = true) ->
  forall n, resolved w n paths = paths.
Proof.
  intros Hall. unfold resolved.
  induction paths as [|p paths IH]; intros n; simpl; [reflexivity|].
  rewrite Hall. simpl. f_equal. apply IH.
Qed.

(** X4.  A request with a [path] parameter has [res.revalidate] called
    once for each path given, in the order given, duplicates included
    and the paths taken as they are; the message counts and lists those
    whose call resolved.  So it lists no more paths than were given,
    and all of them when every call resolves. *)
Theorem path_branch_reports_resolved (w : World) (req : Request) :
  secret_rejected w req = false ->
  truthy (query_path req) = true ->
  let paths := as_array (query_path req) in
  handler w req
  = mkResponse 200
      (Revalidated true (now w)
         ("Revalidated " ++ JS.of_nat (List.length (resolved w 0 paths))
            ++ " paths: " ++ JS.join ", " (resolved w 0 paths)))
  /\ List.length (resolved w 0 paths) <= List.length paths
  /\ ((forall n p, revalidate w n p = true) -> resolved w 0 paths = paths).
Proof.
  intros Hsec Hpath paths. split; [|split].
  - unfold handler. rewrite Hsec, Hpath. fold paths.
    now rewrite revalidate_loop_resolved.
  - apply resolved_length.
  - intros Hall. now apply resolved_all.
Qed.

(** X5.  What the tag loop makes of the tags [REVALIDATE_TAGS] builds:
    a product by SKU goes to [/p/<sku>] and a category by UID to
    [/<uid>]; the two [..._BY_URL] tags keep their [url:] marker in the
    path, [/p/url:<key>] and [/url:<path>]; a page tag and the five bare
    tags give no path. *)
Theorem built_tags_translate (x : string) :
  tag_paths (REVALIDATE_TAGS.PRODUCT_BY_SKU x) = ["/p/" ++ x]
  /\ tag_paths (REVALIDATE_TAGS.PRODUCT_BY_URL x) = ["/p/url:" ++ x]
  /\ tag_paths (REVALIDATE_TAGS.CATEGORY_BY_UID x) = ["/" ++ x]
  /\ tag_paths (REVALIDATE_TAGS.CATEGORY_BY_URL x) = ["/url:" ++ x]
  /\ tag_paths (REVALIDATE_TAGS.PAGE_BY_IDENTIFIER x) = []
  /\ flat_map tag_paths
       [REVALIDATE_TAGS.PRODUCT; REVALIDATE_TAGS.CATEGORY; REVALIDATE_TAGS.PAGE;
        REVALIDATE_TAGS.LAYOUT; REVALIDATE_TAGS.MENU; REVALIDATE_TAGS.ALL] = [].
Proof.
  repeat split.
  - apply tag_paths_product.
  - apply (tag_paths_product ("url:" ++ x)).
  - apply tag_paths_category.
  - apply (tag_paths_category ("url:" ++ x)).
Qed.

End RevalidateMore.

Lemma path_shadows_tag_witness :
  Revalidate.handler Samples.open_world
    (with_tag (Revalidate.Many ["category:shoes"; "layout"]) Samples.anonymous_request)
  = Revalidate.handler Samples.open_world Samples.anonymous_request.
Proof.
  apply (path_shadows_tag Samples.open_world Samples.anonymous_request).
  reflexivity.
Defined.

Lemma secret_check_witness :
  Revalidate.secret_rejected Samples.guarded_world Samples.tagged_request = false
  <-> Revalidate.query_secret Samples.tagged_request = Revalidate.One "s3cret"
      \/ (Revalidate.truthy (Revalidate.query_secret Samples.tagged_request) = false
          /\ Revalidate.header_secret Samples.tagged_request = Revalidate.One "s3cret").
Proof.
  apply (secret_check Samples.guarded_world Samples.tagged_request "s3cret").
  - reflexivity.
  - discriminate.
Defined.

Lemma unprefixed_tags_do_nothing_witness :
  Revalidate.handler Samples.open_world MoreSamples.bare_tags_request
  = mkResponse 200
      (Revalidate.Revalidated true 0%Z
         "Revalidated 0 paths from tags: product, layout, all").
Proof.
  apply (unprefixed_tags_do_nothing Samples.open_world MoreSamples.bare_tags_request);
    reflexivity.
Defined.

Lemma path_branch_reports_resolved_witness :
  Revalidate.handler Samples.open_world Samples.delete_request
  = mkResponse 200
      (Revalidate.Revalidated true 0%Z "Revalidated 1 paths: /p/shoe")
  /\ 1 <= 1
  /\ ((forall n p, Revalidate.revalidate Samples.open_world n p = true) ->
      resolved Samples.open_world 0 ["/p/shoe"] = ["/p/shoe"]).
Proof.
  apply (path_branch_reports_resolved Samples.open_world Samples.delete_request);
    reflexivity.
Defined.

(* ================================================================== *)
(** ** The client helpers against [/api/revalidate]                    *)
(* ================================================================== *)

Section ClientFacts.

Import Revalidate.

Lemma appended_params (name : string) (values : list string) :
  forall params,
    fold_left (fun params v => Client.append params name v) values params
    = (params ++ map (pair name) values)%list.
Proof.
  induction values as [|v values IH]; intros params; simpl.
  - now rewrite app_nil_r.
  - rewrite IH. unfold Client.append, JS.push. now rewrite <- app_assoc.
Qed.

Lemma query_app (ps qs : Client.URLSearchParams) (name : string) :
  filter (fun entry => fst entry =? name) qs = [] ->
  Deployment.query (ps ++ qs)%list name = Deployment.query ps name.
Proof.
  intros H. unfold Deployment.query. now rewrite filter_app, H, app_nil_r.
Qed.

Lemma query_same (name : string) (values : list string) :
  map snd (filter (fun entry => fst entry =? name) (map (pair name) values))
  = values.
Proof.
  induction values as [|v values IH]; simpl; [reflexivity|].
  rewrite String.eqb_refl. simpl. now rewrite IH.
Qed.

Lemma query_other (name other : string) (values : list string) :
  (name =? other) = false ->
  filter (fun entry => fst entry =? other) (map (pair name) values) = [].
Proof.
  intros Hne. induction values as [|v values IH]; simpl; [reflexivity|].
  now rewrite Hne.
Qed.

Lemma query_truthy (name : string) (values : list string) :
  truthy (Deployment.query (map (pair name) values) name) = usable values.
Proof.
  unfold Deployment.query. rewrite query_same.
  destruct values as [|v [|v' values]]; reflexivity.
Qed.

Lemma query_secret_last (ps : Client.URLSearchParams) (s other : string) :
  (other =? "secret") = false ->
  Deployment.query (Client.append ps "secret" s) other = Deployment.query ps other.
Proof.
  intros H. unfold Client.append, JS.push. apply query_app.
  cbn [filter fst]. rewrite String.eqb_sym. now rewrite H.
Qed.

(** What the server receives of a helper's request: the values under
    the helper's parameter, nothing under another, and the secret, when
    one is given, in the query; without one, no header either. *)
Lemma received_request (name : string) (a : Client.arg) (secret : option string) :
  (name =? "secret") = false ->
  let sent := Client.request name a secret in
  Deployment.query (Client.params sent) name
  = Deployment.query (map (pair name) (Client.to_array a)) name
  /\ (forall other, (name =? other) = false -> (other =? "secret") = false ->
        Deployment.query (Client.params sent) other = Absent)
  /\ query_secret (Deployment.received sent)
     = match secret with
       | Some s => if s =? "" then Absent else One s
       | None => Absent
       end
  /\ (Client.given secret = false ->
      header_secret (Deployment.received sent) = Absent).
Proof.
  intros Hname sent. subst sent.
  assert (Hother : forall other, (name =? other) = false ->
            Deployment.query (map (pair name) (Client.to_array a)) other = Absent).
  { intros other Ho. unfold Deployment.query.
    now rewrite (query_other name other _ Ho). }
  unfold Deployment.received, Client.request, Client.given.
  cbn [Client.params Client.headers query_secret header_secret].
  rewrite appended_params. cbn [app].
  destruct secret as [s|].
  - destruct (s =? "") eqn:E; cbn [negb].
    + repeat split.
      * intros other Ho _. now apply Hother.
      * now apply Hother.
    + repeat split.
      * apply query_secret_last. assumption.
      * intros other Ho Hs. rewrite query_secret_last by assumption.
        now apply Hother.
      * unfold Client.append, JS.push, Deployment.query.
        rewrite filter_app, (query_other name "secret" _ Hname). reflexivity.
      * discriminate.
  - repeat split.
    + intros other Ho _. now apply Hother.
    + now apply Hother.
Qed.

End ClientFacts.

Section HelperFacts.

Import Revalidate.

Variable transport : Deployment.Transport.
Variable rw : World.
Variable statusText : nat -> string.

(** The secret check on a helper's request. *)
Lemma helper_secret (name : string) (a : Client.arg) (secret : option string)
      (s : string) :
  (name =? "secret") = false ->
  REVALIDATE_SECRET rw = Some s ->
  s <> "" ->
  secret_rejected rw (Deployment.received (Client.request name a secret))
  = match secret with
    | Some s' => negb (s' =? s)
    | None => true
    end.
Proof.
  intros Hname Henv Hset.
  destruct (received_request name a secret Hname) as (_ & _ & Hq & Hh).
  unfold secret_rejected. rewrite Henv, Hq.
  apply String.eqb_neq in Hset. rewrite Hset. cbn [negb].
  destruct secret as [s'|].
  - destruct (s' =? "") eqn:E.
    + rewrite Hh by (cbn; now rewrite E).
      apply String.eqb_eq in E. subst s'.
      rewrite (String.eqb_sym "" s), Hset. reflexivity.
    + unfold or_else. cbn [truthy]. rewrite E. reflexivity.
  - rewrite Hh by reflexivity. reflexivity.
Qed.

Lemma helper_call (name other : string) (a : Client.arg) (s : string) :
  (name =? "secret") = false ->
  (name =? other) = false ->
  (other =? "secret") = false ->
  (name = "tag" /\ other = "path") \/ (name = "path" /\ other = "tag") ->
  REVALIDATE_SECRET rw = Some s ->
  s <> "" ->
  transport (Client.request name a (Some s)) = Deployment.Served ->
  (usable (Client.to_array a) = true ->
   exists message,
     Deployment.call name transport rw statusText a (Some s)
     = Client.Resolved (Revalidated true (now rw) message))
  /\ (usable (Client.to_array a) = false ->
      Deployment.call name transport rw statusText a (Some s)
      = Client.Thrown ("Revalidation failed: " ++ statusText 400)).
Proof.
  intros Hname Hother Hos Hnames Henv Hset Hserved.
  pose proof (helper_secret name a (Some s) s Hname Henv Hset) as Hsec.
  cbn beta iota in Hsec. rewrite String.eqb_refl in Hsec. cbn [negb] in Hsec.
  destruct (received_request name a (Some s) Hname) as (Hq & Hnone & _ & _).
  specialize (Hnone other Hother Hos).
  pose proof (query_truthy name (Client.to_array a)) as Htruthy.
  rewrite <- Hq in Htruthy.
  unfold Deployment.call. rewrite Hserved. unfold handler. rewrite Hsec.
  destruct Hnames as [[-> ->] | [-> ->]];
    unfold Deployment.received in *;
    cbn [query_path query_tag] in *;
    rewrite ?Hnone, ?Htruthy; cbn [truthy].
  - split; intros Hu; rewrite Hu.
    + eexists. reflexivity.
    + reflexivity.
  - split; intros Hu; rewrite Hu.
    + eexists. reflexivity.
    + reflexivity.
Qed.

(** X6.  Called with the secret the server is configured with, and
    their request reaching the handler, the two helpers are never
    turned away as unauthorised.  They resolve, with
    [revalidated: true], when the tags (or paths) passed are several, or
    one that is not the empty string; passed an empty array or one empty
    string they throw on the handler's 400. *)
Theorem helper_with_the_secret (a : Client.arg) (s : string) :
  REVALIDATE_SECRET rw = Some s ->
  s <> "" ->
  (forall name, transport (Client.request name a (Some s)) = Deployment.Served) ->
  (usable (Client.to_array a) = true ->
   (exists message,
       Deployment.revalidateByTag transport rw statusText a (Some s)
       = Client.Resolved (Revalidated true (now rw) message))
   /\ (exists message,
          Deployment.revalidateByPath transport rw statusText a (Some s)
          = Client.Resolved (Revalidated true (now rw) message)))
  /\ (usable (Client.to_array a) = false ->
      Deployment.revalidateByTag transport rw statusText a (Some s)
      = Client.Thrown ("Revalidation failed: " ++ statusText 400)
      /\ Deployment.revalidateByPath transport rw statusText a (Some s)
         = Client.Thrown ("Revalidation failed: " ++ statusText 400)).
Proof.
  intros Henv Hset Hserved.
  destruct (helper_call "tag" "path" a s) as [Ht1 Ht0]; auto.
  destruct (helper_call "path" "tag" a s) as [Hp1 Hp0]; auto.
Qed.


(** A request that does not reach the handler: what [fetch] throws the
    helper throws again, and a status that is not ok, whoever sends it,
    makes it throw ``Revalidation failed''. *)
Lemma helper_unserved (name : string) (a : Client.arg) (secret : option string) :
  (forall message,
      transport (Client.request name a secret) = Deployment.Fails message ->
      Deployment.call name transport rw statusText a secret
      = Client.Thrown message)
  /\ (forall status json,
         transport (Client.request name a secret)
         = Deployment.Answered status json ->
         Deployment.ok status = false ->
         Deployment.call name transport rw statusText a secret
         = Client.Thrown ("Revalidation failed: " ++ statusText status)).
Proof.
  split.
  - intros message H. unfold Deployment.call. now rewrite H.
  - intros status json H Hok. unfold Deployment.call, Client.settle.
    now rewrite H, Hok.
Qed.

End HelperFacts.

Lemma helper_with_the_secret_witness :
  exists message,
    Deployment.revalidateByTag MoreSamples.narrow Samples.guarded_world
      MoreSamples.status_text
      (Client.Several [REVALIDATE_TAGS.PRODUCT_BY_SKU "S1"; REVALIDATE_TAGS.PAGE])
      (Some "s3cret")
    = Client.Resolved (Revalidate.Revalidated true 0%Z message).
Proof.
  destruct (helper_with_the_secret MoreSamples.narrow Samples.guarded_world
              MoreSamples.status_text
              (Client.Several [REVALIDATE_TAGS.PRODUCT_BY_SKU "S1";
                               REVALIDATE_TAGS.PAGE]) "s3cret")
    as [Hgood _].
  - reflexivity.
  - discriminate.
  - intros name. reflexivity.
  - apply Hgood. reflexivity.
Defined.


(* ================================================================== *)
(** ** [/api/webhook/magento]: one path at most, and what is answered  *)
(* ================================================================== *)

Section WebhookMore.

Import Webhook.

Lemma is_str_true (v : JS.value) (lit : string) :
  JS.is_str v lit = true -> v = JS.Str lit.
Proof.
  destruct v as [|s|t shown|]; simpl; try discriminate.
  intros H. apply String.eqb_eq in H. now subst.
Qed.

Ltac branches :=
  repeat (cbn [negb andb orb bind];
          match goal with
          | |- context [JS.truthy ?v] => destruct (JS.truthy v)
          | |- context [JS.show ?v] => destruct (JS.show v)
          | |- context [match url_path ?d with _ => _ end] => destruct (url_path d)
          end);
  cbn [negb andb orb bind].

(** The branches of the translation exclude one another. *)
Lemma translate_at_most_one (b : Payload) (paths : list string) :
  translate b = Returns paths -> List.length paths <= 1.
Proof.
  unfold translate, product_paths, category_paths, page_paths, template.
  destruct (JS.is_str (entity b) "product") eqn:Ep.
  - apply is_str_true in Ep. rewrite Ep. cbn [JS.is_str].
    change ("product" =? "category") with false.
    change ("product" =? "page") with false.
    change ("product" =? "cms_page") with false.
    branches; try discriminate; intros [= <-]; simpl; lia.
  - destruct (JS.is_str (entity b) "category") eqn:Ec.
    + apply is_str_true in Ec. rewrite Ec. cbn [JS.is_str].
      change ("category" =? "page") with false.
      change ("category" =? "cms_page") with false.
      branches; try discriminate; intros [= <-]; simpl; lia.
    + destruct (JS.is_str (entity b) "page" || JS.is_str (entity b) "cms_page");
        branches; try discriminate; intros [= <-]; simpl; lia.
Qed.

(** Without an entity that is a string there is no path. *)
Lemma translate_path_entity (b : Payload) (path : string) (paths : list string) :
  translate b = Returns (path :: paths) -> exists s, entity b = JS.Str s.
Proof.
  destruct (entity b) as [|s|t shown|] eqn:E; [| now exists s | |];
    unfold translate, product_paths, category_paths, page_paths;
    rewrite E; cbn; discriminate.
Qed.

(** X8.  A webhook call revalidates one path at most, and is answered
    in one of three ways.  A template literal or [startsWith] throws
    while the path is made: 500.  No path is made: 400.  One path is
    made: its revalidation is called for, and the answer is 200 with
    [success: true] whether or not that call came back ok, the count in
    the message telling which (1 or 0); but when [String(action)]
    throws, the log of line 121 throws after the call and the answer
    is 500. *)
Theorem webhook_answers (w : World) (b : Payload) :
  JS.truthy (entity b) = true ->
  JS.truthy (action b) = true ->
  (translate b = Throws
   /\ handler w (mkRequest "POST" (Some b))
      = mkResponse 500 (Error "Internal server error"))
  \/ (translate b = Returns []
      /\ handler w (mkRequest "POST" (Some b))
         = mkResponse 400 (Error "Unknown entity type or missing path data"))
  \/ (exists path,
         translate b = Returns [path]
         /\ handler w (mkRequest "POST" (Some b))
            = match JS.show (action b) with
              | None => mkResponse 500 (Error "Internal server error")
              | Some _ =>
                  mkResponse 200
                    (Success true
                       (match fetch w 0 path with
                        | Ok => "Revalidated 1 paths"
                        | NotOk _ | Rejected _ => "Revalidated 0 paths"
                        end))
              end).
Proof.
  intros He Ha. rewrite (handler_post w b He Ha).
  destruct (translate b) as [paths|] eqn:Htr; [|left; split; reflexivity].
  pose proof (translate_at_most_one b paths Htr) as Hlen.
  destruct paths as [|path [|path' paths]]; simpl in Hlen; [| |lia].
  - right. left. split; reflexivity.
  - right. right. exists path. split; [reflexivity|].
    destruct (translate_path_entity b path [] Htr) as [s Hs].
    unfold summary_log, template, bind. rewrite Hs. cbn [JS.show].
    destruct (JS.show (action b)); [|reflexivity].
    simpl. destruct (fetch w 0 path); reflexivity.
Qed.

(** X9.  An entity other than [product], [category], [page] and
    [cms_page], [menu] and [layout] among them, is answered 400
    ``Unknown entity type or missing path data'', whatever the data:
    nothing is revalidated for it. *)
Theorem other_entities_are_refused (w : World) (b : Payload) :
  JS.truthy (entity b) = true ->
  JS.truthy (action b) = true ->
  pathful (entity b) = false ->
  handler w (mkRequest "POST" (Some b))
  = mkResponse 400 (Error "Unknown entity type or missing path data").
Proof.
  intros He Ha Hp. unfold pathful in Hp.
  apply orb_false_iff in Hp. destruct Hp as [Hp Hcms].
  apply orb_false_iff in Hp. destruct Hp as [Hp Hpage].
  apply orb_false_iff in Hp. destruct Hp as [Hprod Hcat].
  rewrite (handler_post w b He Ha).
  unfold translate, product_paths, category_paths, page_paths, bind.
  rewrite Hprod, Hcat, Hpage, Hcms. reflexivity.
Qed.

(** X10.  Of the action of a payload the handler asks that it be there
    and, once a path was called for, that it can be printed: two
    payloads that differ in an action that is truthy and has a
    [String()], [update] and [delete] say, get the same answer under
    every method and whatever the calls for revalidation come back
    with. *)
Theorem action_is_not_read (w : World) (m : string) (b : Payload)
        (a1 a2 : JS.value) :
  JS.truthy a1 = true ->
  JS.truthy a2 = true ->
  JS.show a1 <> None ->
  JS.show a2 <> None ->
  handler w (mkRequest m (Some (with_action a1 b)))
  = handler w (mkRequest m (Some (with_action a2 b))).
Proof.
  intros H1 H2 Hs1 Hs2. unfold handler, with_action.
  cbn [method body entity action].
  rewrite H1, H2.
  change (translate (mkPayload (entity b) a1 (data b)))
    with (translate (mkPayload (entity b) a2 (data b))).
  unfold summary_log, template, bind. cbn [entity action].
  destruct (JS.show a1); [|contradiction].
  destruct (JS.show a2); [|contradiction].
  reflexivity.
Qed.

(** X11.  A category whose [url_path] is a non-empty string is
    translated to that string with a [/] put in front unless it has one,
    as [/api/revalidate-all] does with the paths it lists; doing it
    twice changes nothing more. *)
Theorem category_path_is_normalised (d : Data) (a : JS.value) (url : string) :
  url_path d = JS.Str url ->
  url <> "" ->
  translate (mkPayload (JS.Str "category") a d)
  = Returns [RevalidateAll.with_slash url]
  /\ JS.startsWith "/" (RevalidateAll.with_slash url) = true
  /\ RevalidateAll.with_slash (RevalidateAll.with_slash url)
     = RevalidateAll.with_slash url.
Proof.
  intros Hurl Hne.
  assert (Hs : JS.startsWith "/" (RevalidateAll.with_slash url) = true).
  { unfold RevalidateAll.with_slash.
    destruct (JS.startsWith "/" url) eqn:E; [exact E | apply slashed_cons]. }
  split; [|split].
  - unfold translate, product_paths, category_paths, page_paths, bind.
    simpl. rewrite Hurl. simpl.
    apply String.eqb_neq in Hne. rewrite Hne. reflexivity.
  - exact Hs.
  - unfold RevalidateAll.with_slash at 1. now rewrite Hs.
Qed.

End WebhookMore.

Lemma webhook_answers_witness :
  (Webhook.translate MoreSamples.product_payload = Webhook.Throws
   /\ Webhook.handler Samples.webhook_world
        (Webhook.mkRequest "POST" (Some MoreSamples.product_payload))
      = mkResponse 500 (Webhook.Error "Internal server error"))
  \/ (Webhook.translate MoreSamples.product_payload = Webhook.Returns []
      /\ Webhook.handler Samples.webhook_world
           (Webhook.mkRequest "POST" (Some MoreSamples.product_payload))
         = mkResponse 400
             (Webhook.Error "Unknown entity type or missing path data"))
  \/ (exists path,
         Webhook.translate MoreSamples.product_payload = Webhook.Returns [path]
         /\ Webhook.handler Samples.webhook_world
              (Webhook.mkRequest "POST" (Some MoreSamples.product_payload))
            = match JS.show (Webhook.action MoreSamples.product_payload) with
              | None => mkResponse 500 (Webhook.Error "Internal server error")
              | Some _ =>
                  mkResponse 200
                    (Webhook.Success true
                       (match Webhook.fetch Samples.webhook_world 0 path with
                        | Ok => "Revalidated 1 paths"
                        | NotOk _ | Rejected _ => "Revalidated 0 paths"
                        end))
              end).
Proof.
  apply (webhook_answers Samples.webhook_world MoreSamples.product_payload);
    reflexivity.
Defined.

Lemma other_entities_are_refused_witness :
  Webhook.handler Samples.webhook_world
    (Webhook.mkRequest "POST" (Some MoreSamples.menu_payload))
  = mkResponse 400 (Webhook.Error "Unknown entity type or missing path data").
Proof.
  apply (other_entities_are_refused Samples.webhook_world MoreSamples.menu_payload);
    reflexivity.
Defined.

Lemma action_is_not_read_witness :
  Webhook.handler Samples.webhook_world
    (Webhook.mkRequest "POST"
       (Some (with_action (JS.Str "update") MoreSamples.product_payload)))
  = Webhook.handler Samples.webhook_world
      (Webhook.mkRequest "POST"
         (Some (with_action (JS.Str "delete") MoreSamples.product_payload))).
Proof.
  apply (action_is_not_read Samples.webhook_world "POST"
           MoreSamples.product_payload (JS.Str "update") (JS.Str "delete"));
    try reflexivity; discriminate.
Defined.

Lemma category_path_is_normalised_witness :
  Webhook.translate Samples.category_payload = Webhook.Returns ["/men/shoes"].
Proof.
  apply (category_path_is_normalised (Webhook.data Samples.category_payload)
           (JS.Str "update") "men/shoes").
  - reflexivity.
  - discriminate.
Defined.

(* ================================================================== *)
(** ** [/api/revalidate-all]: listing the paths                        *)
(* ================================================================== *)

Section GatherFacts.

Import RevalidateAll.

Variable w : World.

(** The loop over the locales adds what each turn lists and records
    what each turn is refused, and goes on after a refusal. *)
Lemma gather_turns (ls : list string) :
  forall n allPaths errors0,
    gather w n ls allPaths errors0
    = ((allPaths ++ flat_map (listed w) (turns n ls))%list,
       (errors0 ++ flat_map (refused w) (turns n ls))%list).
Proof.
  unfold turns.
  induction ls as [|locale ls IH]; intros n allPaths errors0; simpl.
  - now rewrite !app_nil_r.
  - unfold listed at 1, refused at 1. cbn [fst snd].
    destruct (static_paths w n locale) as [message | products categories];
      [|destruct (fits w (map with_slash products) (map with_slash categories))];
      rewrite IH; unfold JS.push_all, JS.push; cbn [app];
      now rewrite <- ?app_assoc, ?app_nil_r.
Qed.

Lemma with_slash_slashed (p : string) : slashed (with_slash p).
Proof.
  unfold slashed, with_slash.
  destruct (JS.startsWith "/" p) eqn:E; [exact E | apply slashed_cons].
Qed.

Lemma listed_slashed (turn : nat * string) : Forall slashed (listed w turn).
Proof.
  unfold listed. destruct (static_paths w (fst turn) (snd turn)); [constructor|].
  destruct (fits w _ _); [|constructor].
  apply Forall_app. split; apply Forall_forall; intros p Hp;
    apply in_map_iff in Hp; destruct Hp as [q [<- _]]; apply with_slash_slashed.
Qed.

Lemma gather_slashed (ls allPaths errors0 : list string) :
  gather w 0 ls [] [] = (allPaths, errors0) -> Forall slashed allPaths.
Proof.
  rewrite gather_turns. intros [= <- _]. simpl.
  apply Forall_forall. intros p Hp. apply in_flat_map in Hp.
  destruct Hp as [turn [_ Hp]].
  pose proof (listed_slashed turn) as H. rewrite Forall_forall in H. now apply H.
Qed.

Lemma turn_of_locale (ls : list string) :
  forall n k locale,
    nth_error ls k = Some locale -> In (n + k, locale) (turns n ls).
Proof.
  unfold turns.
  induction ls as [|l ls IH]; intros n k locale Hk.
  - destruct k; discriminate.
  - destruct k as [|k]; simpl in *.
    + injection Hk as ->. left. f_equal. lia.
    + right. replace (n + S k) with (S n + k) by lia. now apply IH.
Qed.

(** What the handler does once the method and the locales are in
    order. *)
Lemma respond_runs (ls : list string) :
  exists r,
    orchestrate w (flat_map (listed w) (turns 0 ls))
                (flat_map (refused w) (turns 0 ls)) = Some r
    /\ respond w ls = Some (summary r, trace (final r))
    /\ uniquePaths r = unique (flat_map (listed w) (turns 0 ls))
    /\ dispatched (trace (final r)) = uniquePaths r.
Proof.
  unfold respond. rewrite gather_turns. simpl.
  destruct (orchestrate_runs w (flat_map (listed w) (turns 0 ls))
              (flat_map (refused w) (turns 0 ls)))
    as (r & i & Hrun & Hu & (_ & _ & Hd & _) & _ & Hend).
  exists r. rewrite Hrun, Hu, Hd.
  repeat split. now apply firstn_all2.
Qed.

(** X12.  Every path [/api/revalidate-all] asks [/api/revalidate] to
    revalidate begins with [/]. *)
Theorem dispatched_paths_are_slashed
        (req : Request) (response : Response Body) (tr : list Event) (p : string) :
  handler w req = Some (response, tr) ->
  In p (dispatched tr) ->
  JS.startsWith "/" p = true.
Proof.
  unfold handler.
  destruct (negb _ && negb _); [intros [= _ <-] []|].
  assert (H : forall ls, respond w ls = Some (response, tr) ->
                         In p (dispatched tr) -> slashed p).
  { intros ls. destruct (respond_runs ls) as (r & _ & Hres & Hu & Hd).
    rewrite Hres. intros [= _ <-]. rewrite Hd, Hu, unique_In.
    intros Hp. apply in_flat_map in Hp. destruct Hp as [turn [_ Hp]].
    pose proof (listed_slashed turn) as Hall.
    rewrite Forall_forall in Hall. now apply Hall. }
  destruct (locales req); [apply H | apply H |].
  intros [= _ <-] [].
Qed.


(** Beyond that number the call of [push] throws: the locale adds no
    path, and its [catch] records the RangeError. *)
Lemma overfull_locale_is_refused
      (ls products categories : list string) (k : nat) (locale : string) :
  nth_error ls k = Some locale ->
  static_paths w k locale = Found products categories ->
  max_arguments w < List.length products + List.length categories ->
  listed w (k, locale) = []
  /\ In ("Error fetching paths for locale " ++ locale ++ ": " ++ range_error w)
        (snd (gather w 0 ls [] [])).
Proof.
  intros Hk Hfound Hover.
  assert (Hfits : fits w (map with_slash products) (map with_slash categories)
                  = false).
  { unfold fits. rewrite !length_map. apply Nat.leb_gt. exact Hover. }
  split.
  - unfold listed. cbn [fst snd]. now rewrite Hfound, Hfits.
  - rewrite gather_turns. cbn [snd app]. apply in_flat_map.
    exists (k, locale). split; [apply (turn_of_locale ls 0 k locale Hk)|].
    unfold refused. cbn [fst snd]. rewrite Hfound, Hfits. now left.
Qed.


End GatherFacts.

Lemma dispatched_paths_are_slashed_witness : JS.startsWith "/" "/men" = true.
Proof.
  eapply (dispatched_paths_are_slashed Samples.shop_world Samples.shop_request).
  - reflexivity.
  - simpl. do 12 right. left. reflexivity.
Defined.


Example cramped_engine :
  RevalidateAll.handler MoreSamples.cramped_world Samples.shop_request
  = Some (mkResponse 200
            (RevalidateAll.Summary true "Revalidated 0 out of 0 paths" 0 0 0
               (Some ["Error fetching paths for locale tr: Maximum call stack size exceeded"])),
          []).
Proof. reflexivity. Qed.


(* ================================================================== *)
(** ** [/api/revalidate-all]: calls in flight, and the accounts        *)
(* ================================================================== *)

Section FlightFacts.

Import RevalidateAll.

Variable w : World.

Lemma issues_app (a b : list Event) : issues (a ++ b) = issues a + issues b.
Proof.
  induction a as [|[k p | k p] a IH]; simpl; [reflexivity | now rewrite IH | exact IH].
Qed.

Lemma settles_app (a b : list Event) : settles (a ++ b) = settles a + settles b.
Proof.
  induction a as [|[k p | k p] a IH]; simpl; [reflexivity | exact IH | now rewrite IH].
Qed.

Lemma issued_counts (k : nat) (l : list string) :
  issues (map (Issued k) l) = List.length l /\ settles (map (Issued k) l) = 0.
Proof. induction l as [|p l [IH1 IH2]]; simpl; auto. Qed.

Lemma settled_counts (k : nat) (l : list string) :
  issues (map (Settled k) l) = 0 /\ settles (map (Settled k) l) = List.length l.
Proof. induction l as [|p l [IH1 IH2]]; simpl; auto. Qed.

(** Whatever every turn of the loop keeps holds of the state the
    orchestrator ends in. *)
Lemma orchestrate_keeps (Inv : State -> Prop) (allPaths errors0 : list string) :
  (forall i k st,
      i < List.length (unique allPaths) ->
      Inv st ->
      Inv (run_batch w k (slice i (i + batchSize) (unique allPaths)) st)) ->
  Inv (mkState 0 errors0 []) ->
  forall r, orchestrate w allPaths errors0 = Some r -> Inv (final r).
Proof.
  intros Hstep Hstart r. unfold orchestrate.
  destruct (batch_loop_invariant w (unique allPaths) (fun _ _ st => Inv st) Hstep
              (S (List.length (unique allPaths))) 0 0 (mkState 0 errors0 []))
    as (i & k & st & Hrun & Hinv & _); [lia | exact Hstart |].
  rewrite Hrun. now intros [= <-].
Qed.

Lemma slice_short {A : Type} (i n : nat) (l : list A) :
  List.length (slice i (i + n) l) <= n.
Proof. rewrite slice_batch. apply firstn_le_length. Qed.

Lemma flight_step (k : nat) (batch : list string) (st : State) :
  List.length batch <= batchSize ->
  flight_invariant w st ->
  flight_invariant w (run_batch w k batch st).
Proof.
  intros Hshort Hinv Hfair. destruct (Hinv Hfair) as [Hbal Hpre].
  rewrite run_batch_state. simpl.
  pose proof (Permutation_length (Hfair k batch)) as Hlen.
  set (order := settle_order w k batch) in *.
  destruct (issued_counts k batch) as [Hii His].
  destruct (settled_counts k order) as [Hsi Hss].
  split.
  - rewrite !issues_app, !settles_app. lia.
  - intros pre post Heq.
    apply app_eq_app in Heq. destruct Heq as [l [[Htr _] | [-> Hnew]]].
    + apply (Hpre pre l Htr).
    + destruct (Hpre (trace st) [] (eq_sym (app_nil_r _))) as [H1 H2].
      rewrite issues_app, settles_app.
      apply app_eq_app in Hnew. destruct Hnew as [l' [[Hi _] | [-> Hs]]].
      * rewrite Hi, issues_app in Hii. rewrite Hi, settles_app in His. lia.
      * rewrite issues_app, settles_app, Hii, His.
        rewrite Hs, issues_app in Hsi. rewrite Hs, settles_app in Hss. lia.
Qed.

(** X15.  At no moment of a run are more than ten calls of
    [/api/revalidate] in flight, and when the loop is left none is:
    every call issued has settled. *)
Theorem at_most_ten_in_flight (allPaths errors0 : list string) :
  fair w ->
  exists r,
    orchestrate w allPaths errors0 = Some r
    /\ issues (trace (final r)) = settles (trace (final r))
    /\ forall pre post,
        trace (final r) = (pre ++ post)%list ->
        settles pre <= issues pre <= settles pre + 10.
Proof.
  intros Hfair.
  destruct (orchestrate_runs w allPaths errors0) as (r & _ & Hrun & _).
  exists r. split; [exact Hrun|].
  apply (orchestrate_keeps (flight_invariant w) allPaths errors0); auto.
  - intros i k st _. apply flight_step. apply slice_short.
  - intros _. split; [reflexivity|].
    intros pre post H. symmetry in H. apply app_eq_nil in H.
    destruct H as [-> _]. simpl. lia.
Qed.

Lemma filter_split {A : Type} (f : A -> bool) (l : list A) :
  List.length (filter f l) + List.length (filter (fun x => negb (f x)) l)
  = List.length l.
Proof.
  induction l as [|x l IH]; simpl; [reflexivity|].
  destruct (f x); simpl; lia.
Qed.

(** X16.  No path is lost in the accounts: when the loop is left, the
    count of revalidated paths and the number of error messages
    recorded add up to the number of distinct paths plus the number of
    errors there were before the loop. *)
Theorem every_path_is_accounted_for (allPaths errors0 : list string) :
  fair w ->
  exists r,
    orchestrate w allPaths errors0 = Some r
    /\ revalidatedCount (final r) + List.length (errors (final r))
       = List.length (uniquePaths r) + List.length errors0
    /\ revalidatedCount (final r) <= List.length (uniquePaths r).
Proof.
  intros Hfair.
  destruct (orchestrate_totals w allPaths errors0 Hfair)
    as (r & es & Hrun & Hu & Hc & He & Hp).
  exists r. split; [exact Hrun|].
  rewrite Hu, Hc, He, length_app, (Permutation_length Hp), failure_count.
  pose proof (filter_split (succeeds w) (unique allPaths)). lia.
Qed.

(** X17.  When every locale is listed and every call comes back ok, the
    answer has no [errors] field and [total] is the number of distinct
    paths. *)
Theorem clean_run (req : Request) (ls allPaths : list string) :
  fair w ->
  method req = "GET" \/ method req = "POST" ->
  iterated (locales req) = Some ls ->
  gather w 0 ls [] [] = (allPaths, []) ->
  (forall p, In p allPaths -> fetch w p = Ok) ->
  exists products categories tr,
    handler w req
    = Some (mkResponse 200
              (Summary true
                 ("Revalidated " ++ JS.of_nat (List.length (unique allPaths))
                    ++ " out of " ++ JS.of_nat (List.length (unique allPaths))
                    ++ " paths")
                 products categories (List.length (unique allPaths)) None), tr).
Proof.
  intros Hfair Hm Hls Hg Hok.
  rewrite (handler_accepts w req ls Hm Hls). unfold respond. rewrite Hg.
  destruct (orchestrate_totals w allPaths [] Hfair)
    as (r & es & Hrun & Hu & Hc & He & Hp).
  assert (Hall : forall l, (forall p, In p l -> fetch w p = Ok) ->
            filter (succeeds w) l = l /\ flat_map (failure w) l = []).
  { induction l as [|p l IH]; intros H; simpl; [auto|].
    destruct IH as [IH1 IH2]; [intros q Hq; apply H; now right|].
    unfold succeeds at 1, failure at 1. rewrite (H p) by now left.
    simpl. now rewrite IH1, IH2. }
  destruct (Hall (unique allPaths)) as [Hs Hf].
  { intros p Hp'. apply Hok. now apply unique_In. }
  rewrite Hf in Hp. apply Permutation_sym, Permutation_nil in Hp. subst es.
  rewrite Hs in Hc.
  rewrite Hrun. unfold summary. rewrite Hu, Hc, He. simpl.
  do 3 eexists. reflexivity.
Qed.

End FlightFacts.

Lemma at_most_ten_in_flight_witness :
  exists r,
    RevalidateAll.orchestrate Samples.shop_world Samples.twelve_products [] = Some r
    /\ issues (RevalidateAll.trace (RevalidateAll.final r))
       = settles (RevalidateAll.trace (RevalidateAll.final r))
    /\ forall pre post,
        RevalidateAll.trace (RevalidateAll.final r) = (pre ++ post)%list ->
        settles pre <= issues pre <= settles pre + 10.
Proof.
  apply (at_most_ten_in_flight Samples.shop_world Samples.twelve_products []).
  intros k batch. apply Permutation_rev.
Defined.

Lemma every_path_is_accounted_for_witness :
  exists r,
    RevalidateAll.orchestrate Samples.shop_world Samples.twelve_products [] = Some r
    /\ RevalidateAll.revalidatedCount (RevalidateAll.final r)
       + List.length (RevalidateAll.errors (RevalidateAll.final r))
       = List.length (RevalidateAll.uniquePaths r) + 0
    /\ RevalidateAll.revalidatedCount (RevalidateAll.final r)
       <= List.length (RevalidateAll.uniquePaths r).
Proof.
  apply (every_path_is_accounted_for Samples.shop_world Samples.twelve_products []).
  intros k batch. apply Permutation_rev.
Defined.

Lemma clean_run_witness :
  exists products categories tr,
    RevalidateAll.handler MoreSamples.calm_world Samples.shop_request
    = Some (mkResponse 200
              (RevalidateAll.Summary true "Revalidated 13 out of 13 paths"
                 products categories 13 None), tr).
Proof.
  apply (clean_run MoreSamples.calm_world Samples.shop_request ["tr"]
           (Samples.twelve_products
              ++ map RevalidateAll.with_slash ["men"; "/p/01"])%list).
  - intros k batch. apply Permutation_rev.
  - left. reflexivity.
  - reflexivity.
  - reflexivity.
  - intros p Hp. reflexivity.
Defined.

(* ================================================================== *)
(** ** [/api/revalidate-all]: the order of the set, and the counts     *)
(* ================================================================== *)

Section SetFacts.

Import RevalidateAll.

Lemma filter_both {A : Type} (f g : A -> bool) (l : list A) :
  filter f (filter g l) = filter (fun x => f x && g x) l.
Proof.
  induction l as [|x l IH]; simpl; [reflexivity|].
  destruct (g x); simpl; rewrite ?andb_true_r, ?andb_false_r;
    [destruct (f x) |]; now rewrite IH.
Qed.

Lemma unseen_add (seen l : list string) (x : string) :
  unseen (set_add seen x) l = unseen seen (unseen [x] l).
Proof.
  unfold unseen. rewrite filter_both. apply filter_ext. intros y.
  unfold set_add, JS.push.
  destruct (existsb (String.eqb x) seen) eqn:E.
  - simpl. destruct (existsb (String.eqb y) seen) eqn:Ey; [reflexivity|].
    simpl. rewrite orb_false_r.
    destruct (y =? x) eqn:Eyx; [|reflexivity].
    apply String.eqb_eq in Eyx. subst y. congruence.
  - rewrite existsb_app. simpl. rewrite !orb_false_r.
    now rewrite negb_orb.
Qed.

(** Adding the strings of [l] to a set puts those it has not, in the
    order they first come in [l], after those it has. *)
Lemma fold_set_add_unseen (l : list string) :
  forall seen, fold_left set_add l seen = (seen ++ unseen seen (unique l))%list.
Proof.
  unfold unique.
  induction l as [|x l IH]; intros seen; simpl.
  - now rewrite app_nil_r.
  - rewrite (IH (set_add seen x)), (IH (set_add [] x)).
    rewrite unseen_add.
    change (set_add [] x) with [x].
    unfold unseen at 3. rewrite filter_app. fold (unseen seen [x]).
    fold (unseen seen (unseen [x] (fold_left set_add l []))).
    unfold set_add, JS.push.
    destruct (existsb (String.eqb x) seen) eqn:E.
    + unfold unseen at 2. simpl. now rewrite E.
    + unfold unseen at 3. simpl. rewrite E. simpl.
      now rewrite <- app_assoc.
Qed.

Lemma unseen_none (x : string) (l : list string) :
  ~ In x l -> unseen [x] l = l.
Proof.
  intros Hnin.
  induction l as [|y l IH]; [reflexivity|].
  change (unseen [x] (y :: l))
    with (if negb ((y =? x) || false) then y :: unseen [x] l else unseen [x] l).
  rewrite orb_false_r.
  destruct (y =? x) eqn:E.
  - apply String.eqb_eq in E. subst y. exfalso. apply Hnin. now left.
  - cbn [negb]. rewrite IH; [reflexivity|]. intros H. apply Hnin. now right.
Qed.

(** X18.  [new Set] keeps the first occurrence of each path, in order:
    the set of [x :: l] is [x] followed by the set of [l] without [x].
    So a list without duplicates is left as it is, and taking the set
    twice is taking it once. *)
Theorem set_keeps_first_seen_order (x : string) (l : list string) :
  unique (x :: l) = x :: unseen [x] (unique l)
  /\ (NoDup l -> unique l = l)
  /\ unique (unique l) = unique l.
Proof.
  assert (Hcons : forall y t, unique (y :: t) = y :: unseen [y] (unique t)).
  { intros y t. unfold unique at 1. simpl.
    change (set_add [] y) with [y]. now rewrite fold_set_add_unseen. }
  assert (Hid : forall t, NoDup t -> unique t = t).
  { induction t as [|y t IH]; intros Hnd; [reflexivity|].
    inversion Hnd as [|y' t' Hnin Hnd']; subst.
    rewrite Hcons, (IH Hnd'). now rewrite unseen_none. }
  split; [apply Hcons|]. split; [apply Hid|].
  apply Hid, unique_NoDup.
Qed.

Lemma counts_of_distinct (l : list string) :
  NoDup l ->
  let products := List.length (filter (fun p => JS.startsWith "/p/" p) l) in
  let categories :=
    List.length (filter (fun p => negb (JS.startsWith "/p/" p) && negb (p =? "/")) l) in
  (In "/" l -> products + categories + 1 = List.length l)
  /\ (~ In "/" l -> products + categories = List.length l).
Proof.
  induction l as [|x l IH]; intros Hnd; simpl.
  - split; [intros [] | reflexivity].
  - inversion Hnd as [|x' l' Hnin Hnd']; subst.
    destruct (IH Hnd') as [IH1 IH2].
    destruct (JS.startsWith "/p/" x) eqn:Ep; simpl.
    + assert (x <> "/") by (intros ->; discriminate).
      split.
      * intros [-> | Hin]; [congruence | specialize (IH1 Hin); lia].
      * intros Hn. rewrite <- IH2; [lia | tauto].
    + destruct (x =? "/") eqn:Er; simpl.
      * apply String.eqb_eq in Er. subst x. split.
        -- intros _. specialize (IH2 Hnin). lia.
        -- intros Hn. exfalso. apply Hn. now left.
      * apply String.eqb_neq in Er. split.
        -- intros [-> | Hin]; [congruence | specialize (IH1 Hin); lia].
        -- intros Hn. rewrite <- IH2; [lia | tauto].
Qed.

(** X19.  In the answer of [/api/revalidate-all], [products] and
    [categories] count the distinct paths that were listed, not those
    that were revalidated: together they are all the paths sent for
    revalidation but the root [/], if it was among them. *)
Theorem products_and_categories_count_listed_paths
        (w : World) (req : Request) (success : bool) (message : string)
        (products categories total : nat) (reported : option (list string))
        (tr : list Event) :
  handler w req
  = Some (mkResponse 200 (Summary success message products categories total reported),
          tr) ->
  products + categories + (if in_dec string_dec "/" (dispatched tr) then 1 else 0)
  = List.length (dispatched tr).
Proof.
  unfold handler.
  destruct (negb _ && negb _); [discriminate|].
  assert (H : forall ls,
            respond w ls
            = Some (mkResponse 200
                      (Summary success message products categories total reported),
                    tr) ->
            products + categories
            + (if in_dec string_dec "/" (dispatched tr) then 1 else 0)
            = List.length (dispatched tr)).
  { intros ls. destruct (respond_runs w ls) as (r & _ & Hres & Hu & Hd).
    rewrite Hres. unfold summary. intros [= _ _ <- <- _ _ <-].
    rewrite Hd.
    assert (Hnd : NoDup (uniquePaths r)) by (rewrite Hu; apply unique_NoDup).
    destruct (counts_of_distinct (uniquePaths r) Hnd) as [H1 H0].
    destruct (in_dec string_dec "/" (uniquePaths r)) as [Hin | Hnin].
    - now apply H1.
    - rewrite Nat.add_0_r. now apply H0. }
  destruct (locales req); [apply H | apply H | discriminate].
Qed.

End SetFacts.

Lemma set_keeps_first_seen_order_witness :
  RevalidateAll.unique ["/a"; "/b"; "/c"] = ["/a"; "/b"; "/c"].
Proof.
  destruct (set_keeps_first_seen_order "/a" ["/a"; "/b"; "/c"]) as (_ & Hid & _).
  apply Hid. repeat constructor; simpl; intuition discriminate.
Defined.

Lemma products_and_categories_count_listed_paths_witness :
  12 + 1 + (if in_dec string_dec "/" (dispatched MoreSamples.shop_trace)
            then 1 else 0)
  = List.length (dispatched MoreSamples.shop_trace).
Proof.
  apply (products_and_categories_count_listed_paths Samples.shop_world
           Samples.shop_request true "Revalidated 12 out of 13 paths" 12 1 12
           (Some ["Error revalidating /p/03: timeout"]) MoreSamples.shop_trace).
  reflexivity.
Defined.

(* ================================================================== *)
(** ** The webhook and [/api/revalidate-all] calling [/api/revalidate] *)
(* ================================================================== *)

Section DeploymentFacts.

Variable text : Revalidate.Body -> string.

(** With a secret configured the call is turned away: it carries none. *)
Lemma answer_guarded (rw : Revalidate.World) (path : string) :
  (exists s, Revalidate.REVALIDATE_SECRET rw = Some s /\ s <> "") ->
  Deployment.answer rw text path
  = NotOk (text (Revalidate.Error "Invalid secret token")).
Proof.
  intros [s [Henv Hset]].
  unfold Deployment.answer, Revalidate.handler, Revalidate.secret_rejected.
  rewrite Henv. apply String.eqb_neq in Hset. rewrite Hset. reflexivity.
Qed.

(** With none configured the call is answered 200, whatever becomes of
    [res.revalidate]. *)
Lemma answer_open (rw : Revalidate.World) (path : string) :
  Revalidate.REVALIDATE_SECRET rw = None ->
  slashed path ->
  Deployment.answer rw text path = Ok.
Proof.
  intros Henv Hslash.
  assert (Hne : (path =? "") = false).
  { destruct path; [discriminate | reflexivity]. }
  unfold Deployment.answer, Revalidate.handler, Revalidate.secret_rejected.
  rewrite Henv.
  unfold Deployment.received, Deployment.path_fetch, Deployment.query,
    Client.append, JS.push.
  cbn. rewrite Hne. reflexivity.
Qed.

Lemma fetch_loop_none (w : Webhook.World) (paths : list string) :
  (forall n p, Webhook.fetch w n p <> Ok) ->
  forall n acc, Webhook.fetch_loop w n paths acc = acc.
Proof.
  intros Hfail. induction paths as [|p paths IH]; intros n acc; simpl; [reflexivity|].
  destruct (Webhook.fetch w n p) eqn:E; [now apply Hfail in E | apply IH | apply IH].
Qed.

Variable transport : Deployment.Transport.

(** X20.  The webhook calls [/api/revalidate] without a secret.  So
    when that endpoint has a non-empty [REVALIDATE_SECRET] the handler
    answers 401 to every call of the webhook that reaches it; with the
    calls that fail on the way, or are answered by another with an
    error status, no call comes back ok.  For any payload it has a path
    for, the webhook then answers 200, [success: true], ``Revalidated 0
    paths''; or 500, when [String(action)] throws at the log of line
    121. *)
Theorem webhook_behind_a_secret
        (rw : nat -> Revalidate.World) (b : Webhook.Payload) (paths : list string) :
  (forall n, exists s, Revalidate.REVALIDATE_SECRET (rw n) = Some s /\ s <> "") ->
  (forall f status json,
      transport f = Deployment.Answered status json ->
      Deployment.ok status = false) ->
  JS.truthy (Webhook.entity b) = true ->
  JS.truthy (Webhook.action b) = true ->
  Webhook.translate b = Webhook.Returns paths ->
  paths <> [] ->
  Webhook.handler (Deployment.webhook_via transport rw text)
                  (Webhook.mkRequest "POST" (Some b))
  = match JS.show (Webhook.action b) with
    | Some _ => mkResponse 200 (Webhook.Success true "Revalidated 0 paths")
    | None => mkResponse 500 (Webhook.Error "Internal server error")
    end.
Proof.
  intros Hsec Hfront He Ha Htr Hne.
  rewrite (handler_post _ b He Ha), Htr.
  destruct paths as [|p paths]; [contradiction|]. cbn [List.length Nat.eqb].
  destruct (translate_path_entity b p paths Htr) as [s Hs].
  unfold Webhook.summary_log, Webhook.template, Webhook.bind.
  rewrite Hs. cbn [JS.show].
  destruct (JS.show (Webhook.action b)); [|reflexivity].
  rewrite fetch_loop_none; [reflexivity|].
  intros n q. cbn [Deployment.webhook_via Webhook.fetch].
  unfold Deployment.fetched.
  destruct (transport (Deployment.path_fetch q)) as [|m|st j] eqn:E.
  - rewrite (answer_guarded (rw n) q (Hsec n)). discriminate.
  - discriminate.
  - rewrite (Hfront _ st j E). discriminate.
Qed.

(** X21.  With no secret configured, [/api/revalidate] answers 200 to
    the webhook's call even when [res.revalidate] rejects; so the
    webhook, for any payload it has a path for and whose call reaches
    the handler, answers ``Revalidated 1 paths'' whether or not the page
    was regenerated; or 500, when [String(action)] throws at the log of
    line 121. *)
Theorem webhook_counts_unrevalidated_paths
        (rw : nat -> Revalidate.World) (b : Webhook.Payload) (paths : list string) :
  (forall n, Revalidate.REVALIDATE_SECRET (rw n) = None) ->
  (forall path, In path paths ->
                transport (Deployment.path_fetch path) = Deployment.Served) ->
  JS.truthy (Webhook.entity b) = true ->
  JS.truthy (Webhook.action b) = true ->
  Webhook.translate b = Webhook.Returns paths ->
  paths <> [] ->
  Webhook.handler (Deployment.webhook_via transport rw text)
                  (Webhook.mkRequest "POST" (Some b))
  = match JS.show (Webhook.action b) with
    | Some _ => mkResponse 200 (Webhook.Success true "Revalidated 1 paths")
    | None => mkResponse 500 (Webhook.Error "Internal server error")
    end.
Proof.
  intros Hsec Hserved He Ha Htr Hne.
  pose proof (translate_at_most_one b paths Htr) as Hlen.
  pose proof (translate_slashed b paths Htr) as Hslash.
  rewrite (handler_post _ b He Ha), Htr.
  destruct paths as [|p [|q paths]]; [contradiction | | simpl in Hlen; lia].
  inversion Hslash as [|p' l' Hp _]; subst.
  destruct (translate_path_entity b p [] Htr) as [s Hs].
  unfold Webhook.summary_log, Webhook.template, Webhook.bind.
  rewrite Hs. cbn [JS.show List.length Nat.eqb].
  destruct (JS.show (Webhook.action b)); [|reflexivity].
  cbn [Webhook.fetch_loop Deployment.webhook_via Webhook.fetch].
  unfold Deployment.fetched.
  rewrite (Hserved p (or_introl eq_refl)).
  rewrite (answer_open (rw 0) p (Hsec 0) Hp). reflexivity.
Qed.

Variable static_paths : nat -> string -> RevalidateAll.StaticPaths.
Variable settle_order : nat -> list string -> list string.
Variable max_arguments : nat.
Variable range_error : string.
Hypothesis settle_order_fair : forall k batch, Permutation batch (settle_order k batch).

Lemma all_ok (w : RevalidateAll.World) (l : list string) :
  (forall p, In p l -> RevalidateAll.fetch w p = Ok) ->
  filter (succeeds w) l = l /\ flat_map (failure w) l = [].
Proof.
  induction l as [|p l IH]; intros H; simpl; [auto|].
  destruct IH as [IH1 IH2]; [intros q Hq; apply H; now right|].
  unfold succeeds at 1, failure at 1. rewrite (H p) by now left.
  simpl. now rewrite IH1, IH2.
Qed.

Lemma none_ok (w : RevalidateAll.World) (l : list string) :
  (forall p, In p l -> succeeds w p = false) ->
  filter (succeeds w) l = [].
Proof.
  induction l as [|p l IH]; intros H; simpl; [reflexivity|].
  rewrite (H p) by now left. apply IH. intros q Hq. apply H. now right.
Qed.

(** X22.  With no secret configured, [/api/revalidate-all] counts every
    distinct path as revalidated, whether or not [res.revalidate]
    resolved for it: [total] is the number of distinct paths and the
    only errors reported are those of the locales. *)
Theorem revalidate_all_counts_unrevalidated_paths
        (rw : string -> Revalidate.World)
        (req : RevalidateAll.Request) (ls allPaths errors0 : list string) :
  let w := Deployment.all_world rw text static_paths settle_order
                                max_arguments range_error in
  (forall p, Revalidate.REVALIDATE_SECRET (rw p) = None) ->
  RevalidateAll.method req = "GET" \/ RevalidateAll.method req = "POST" ->
  iterated (RevalidateAll.locales req) = Some ls ->
  RevalidateAll.gather w 0 ls [] [] = (allPaths, errors0) ->
  exists message products categories tr,
    RevalidateAll.handler w req
    = Some (mkResponse 200
              (RevalidateAll.Summary true message products categories
                 (List.length (RevalidateAll.unique allPaths))
                 (match errors0 with
                  | [] => None
                  | _ :: _ => Some (firstn 10 errors0)
                  end)), tr).
Proof.
  intros w Hsec Hm Hls Hg.
  assert (Hfair : RevalidateAll.fair w) by exact settle_order_fair.
  rewrite (handler_accepts w req ls Hm Hls). unfold RevalidateAll.respond.
  rewrite Hg.
  destruct (orchestrate_totals w allPaths errors0 Hfair)
    as (r & es & Hrun & Hu & Hc & He & Hp).
  destruct (all_ok w (RevalidateAll.unique allPaths)) as [Hs Hf].
  { intros p Hin. rewrite unique_In in Hin.
    pose proof (gather_slashed w ls allPaths errors0 Hg) as Hall.
    rewrite Forall_forall in Hall.
    apply (answer_open (rw p) p (Hsec p) (Hall p Hin)). }
  rewrite Hf in Hp. apply Permutation_sym, Permutation_nil in Hp. subst es.
  rewrite Hs in Hc. rewrite app_nil_r in He.
  rewrite Hrun. unfold RevalidateAll.summary. rewrite Hu, Hc, He.
  do 4 eexists. f_equal. f_equal. f_equal. f_equal.
  destruct errors0; [reflexivity|]. now rewrite slice_from_start.
Qed.

(** X23.  [/api/revalidate-all] calls [/api/revalidate] without a secret
    too.  With a non-empty [REVALIDATE_SECRET] every call is answered
    401: the answer is still 200 with [success: true], [total] is 0, and
    a message is recorded for each distinct path. *)
Theorem revalidate_all_behind_a_secret
        (rw : string -> Revalidate.World)
        (req : RevalidateAll.Request) (ls allPaths errors0 : list string) :
  let w := Deployment.all_world rw text static_paths settle_order
                                max_arguments range_error in
  (forall p, exists s, Revalidate.REVALIDATE_SECRET (rw p) = Some s /\ s <> "") ->
  RevalidateAll.method req = "GET" \/ RevalidateAll.method req = "POST" ->
  iterated (RevalidateAll.locales req) = Some ls ->
  RevalidateAll.gather w 0 ls [] [] = (allPaths, errors0) ->
  exists message products categories reported tr r,
    RevalidateAll.handler w req
    = Some (mkResponse 200
              (RevalidateAll.Summary true message products categories 0 reported),
            tr)
    /\ RevalidateAll.orchestrate w allPaths errors0 = Some r
    /\ List.length (RevalidateAll.errors (RevalidateAll.final r))
       = List.length errors0 + List.length (RevalidateAll.unique allPaths)
    /\ reported
       = match RevalidateAll.errors (RevalidateAll.final r) with
         | [] => None
         | _ :: _ => Some (firstn 10 (RevalidateAll.errors (RevalidateAll.final r)))
         end.
Proof.
  intros w Hsec Hm Hls Hg.
  assert (Hfair : RevalidateAll.fair w) by exact settle_order_fair.
  rewrite (handler_accepts w req ls Hm Hls). unfold RevalidateAll.respond.
  rewrite Hg.
  destruct (orchestrate_totals w allPaths errors0 Hfair)
    as (r & es & Hrun & Hu & Hc & He & Hp).
  assert (Hfail : forall p, succeeds w p = false).
  { intros p. unfold succeeds. simpl.
    now rewrite (answer_guarded (rw p) p (Hsec p)). }
  rewrite (none_ok w _ (fun p _ => Hfail p)) in Hc. simpl in Hc.
  rewrite Hrun. unfold RevalidateAll.summary. rewrite Hu, Hc.
  do 5 eexists. exists r. split; [reflexivity|]. split; [reflexivity|]. split.
  - rewrite He, length_app, (Permutation_length Hp), failure_count.
    f_equal. rewrite <- (filter_split (succeeds w) (RevalidateAll.unique allPaths)).
    now rewrite (none_ok w _ (fun p _ => Hfail p)).
  - destruct (RevalidateAll.errors (RevalidateAll.final r)); [reflexivity|].
    now rewrite slice_from_start.
Qed.

End DeploymentFacts.

Lemma webhook_behind_a_secret_witness :
  Webhook.handler
    (Deployment.webhook_via MoreSamples.narrow MoreSamples.guarded MoreSamples.text)
    (Webhook.mkRequest "POST" (Some MoreSamples.product_payload))
  = mkResponse 200 (Webhook.Success true "Revalidated 0 paths").
Proof.
  apply (webhook_behind_a_secret MoreSamples.text MoreSamples.narrow
           MoreSamples.guarded MoreSamples.product_payload ["/p/shoe"]).
  - intros n. exists "s3cret". split; [reflexivity | discriminate].
  - intros f st j H. unfold MoreSamples.narrow in H.
    destruct (_ && _) in H; [discriminate|]. now injection H as <- _.
  - reflexivity.
  - reflexivity.
  - reflexivity.
  - discriminate.
Defined.

Lemma webhook_counts_unrevalidated_paths_witness :
  Webhook.handler
    (Deployment.webhook_via MoreSamples.narrow (fun _ => MoreSamples.failing_world)
                            MoreSamples.text)
    (Webhook.mkRequest "POST" (Some MoreSamples.product_payload))
  = mkResponse 200 (Webhook.Success true "Revalidated 1 paths").
Proof.
  apply (webhook_counts_unrevalidated_paths MoreSamples.text MoreSamples.narrow
           (fun _ => MoreSamples.failing_world)
           MoreSamples.product_payload ["/p/shoe"]).
  - intros n. reflexivity.
  - intros path [<- | []]. reflexivity.
  - reflexivity.
  - reflexivity.
  - reflexivity.
  - discriminate.
Defined.

Lemma revalidate_all_counts_unrevalidated_paths_witness :
  exists message products categories tr,
    RevalidateAll.handler
      (Deployment.all_world (fun _ => MoreSamples.failing_world) MoreSamples.text
         (RevalidateAll.static_paths Samples.shop_world) (fun _ batch => rev batch)
         1000 "Maximum call stack size exceeded")
      Samples.shop_request
    = Some (mkResponse 200
              (RevalidateAll.Summary true message products categories 13 None), tr).
Proof.
  apply (revalidate_all_counts_unrevalidated_paths MoreSamples.text
           (RevalidateAll.static_paths Samples.shop_world)
           (fun _ batch => rev batch) 1000 "Maximum call stack size exceeded"
           (fun _ batch => Permutation_rev batch)
           (fun _ => MoreSamples.failing_world) Samples.shop_request ["tr"]
           (Samples.twelve_products
              ++ map RevalidateAll.with_slash ["men"; "/p/01"])%list []).
  - intros p. reflexivity.
  - left. reflexivity.
  - reflexivity.
  - reflexivity.
Defined.

Lemma revalidate_all_behind_a_secret_witness :
  exists message products categories reported tr r,
    RevalidateAll.handler
      (Deployment.all_world (fun _ => Samples.guarded_world) MoreSamples.text
         (RevalidateAll.static_paths Samples.shop_world) (fun _ batch => rev batch)
         1000 "Maximum call stack size exceeded")
      Samples.shop_request
    = Some (mkResponse 200
              (RevalidateAll.Summary true message products categories 0 reported),
            tr)
    /\ RevalidateAll.orchestrate
         (Deployment.all_world (fun _ => Samples.guarded_world) MoreSamples.text
            (RevalidateAll.static_paths Samples.shop_world)
            (fun _ batch => rev batch) 1000 "Maximum call stack size exceeded")
         (Samples.twelve_products
            ++ map RevalidateAll.with_slash ["men"; "/p/01"])%list [] = Some r
    /\ List.length (RevalidateAll.errors (RevalidateAll.final r)) = 0 + 13
    /\ reported
       = match RevalidateAll.errors (RevalidateAll.final r) with
         | [] => None
         | _ :: _ => Some (firstn 10 (RevalidateAll.errors (RevalidateAll.final r)))
         end.
Proof.
  apply (revalidate_all_behind_a_secret MoreSamples.text
           (RevalidateAll.static_paths Samples.shop_world)
           (fun _ batch => rev batch) 1000 "Maximum call stack size exceeded"
           (fun _ batch => Permutation_rev batch)
           (fun _ => Samples.guarded_world) Samples.shop_request ["tr"]
           (Samples.twelve_products
              ++ map RevalidateAll.with_slash ["men"; "/p/01"])%list []).
  - intros p. exists "s3cret". split; [reflexivity | discriminate].
  - left. reflexivity.
  - reflexivity.
  - reflexivity.
Defined.

(* ================================================================== *)
(** ** The earlier lemmas at sample inputs                             *)
(* ================================================================== *)

Lemma single_failure_is_reported_witness :
  exists message products categories total tr,
    RevalidateAll.handler Samples.shop_world Samples.shop_request
    = Some (mkResponse 200
              (RevalidateAll.Summary true message products categories total
                 (Some ["Error revalidating /p/03: timeout"])), tr)
    /\ S total
       = List.length
           (RevalidateAll.unique
              (Samples.twelve_products
                 ++ map RevalidateAll.with_slash ["men"; "/p/01"])%list).
Proof.
  apply (single_failure_is_reported Samples.shop_world Samples.shop_request
           ["tr"]
           (Samples.twelve_products
              ++ map RevalidateAll.with_slash ["men"; "/p/01"])%list
           "/p/03" "Error revalidating /p/03: timeout").
  - intros k batch. apply Permutation_rev.
  - left. reflexivity.
  - reflexivity.
  - reflexivity.
  - simpl. do 2 right. left. reflexivity.
  - reflexivity.
  - intros q Hq Hne. simpl in Hq.
    repeat (destruct Hq as [<- | Hq]; [try reflexivity; now elim Hne|]).
    destruct Hq.
Defined.

Lemma supported_methods_pass_witness :
  status (Webhook.handler Samples.webhook_world
            (Webhook.mkRequest "POST" (Some MoreSamples.menu_payload))) <> 405.
Proof.
  destruct supported_methods_pass as [_ Hhook].
  apply (Hhook Samples.webhook_world
           (Webhook.mkRequest "POST" (Some MoreSamples.menu_payload))).
  reflexivity.
Defined.

Lemma non_string_url_path_throws_witness :
  Webhook.handler Samples.webhook_world
    (Webhook.mkRequest "POST"
       (Some (Webhook.mkPayload (JS.Str "category") (JS.Str "update")
                (Webhook.mkData JS.Undefined JS.Undefined (JS.Other true "42")
                                JS.Undefined JS.Undefined))))
  = mkResponse 500 (Webhook.Error "Internal server error").
Proof.
  apply (non_string_url_path_throws Samples.webhook_world
           (Webhook.mkData JS.Undefined JS.Undefined (JS.Other true "42")
                           JS.Undefined JS.Undefined)
           (JS.Str "update") "42"); reflexivity.
Defined.

Lemma falsy_url_key_any_data_witness :
  Webhook.handler Samples.webhook_world
    (Webhook.mkRequest "POST"
       (Some (Webhook.mkPayload (JS.Str "product") (JS.Str "delete")
                (Webhook.mkData (JS.Str "") (JS.Str "S1") (JS.Str "men/shoes")
                                JS.Undefined (JS.Str "about-us")))))
  = mkResponse 400 (Webhook.Error "Unknown entity type or missing path data").
Proof.
  apply (falsy_url_key_any_data Samples.webhook_world
           (Webhook.mkData (JS.Str "") (JS.Str "S1") (JS.Str "men/shoes")
                           JS.Undefined (JS.Str "about-us"))
           (JS.Str "delete")); reflexivity.
Defined.
